(** * MedLingua Bridge: the conversation controller and its hooks

    A shallow embedding of the React code of the healthcare translation
    prototype:

    - [pages/Index.tsx], in its two snapshots: the one with the
      "Switch Roles" button (module [Toggle]) and the one with the
      patient / provider tabs (module [Tabs]);
    - [hooks/useTextToSpeech] (module [TextToSpeech]);
    - [hooks/useTranslation], in its two snapshots: the Groq client
      (module [Groq]) and the placeholder that fetches a fixed URL
      (module [Placeholder]);
    - the event handlers of [components/VoiceRecorder.tsx]
      (module [VoiceRecorder]).

    The state cells of the components ([useState], [useRef]) and the
    capabilities of the browser are the fields of one record, [world];
    an event handler is a function [world -> world] that runs against the
    committed cells, and what it does to the outside (toasts, speech
    synthesis, calls of the translation backend) is appended to the trace
    [log].  An [await] splits a function in two: the part that runs at
    the call and the part that runs when the awaited call settles. *)

From Stdlib Require Import String Ascii List NArith PeanoNat Bool Lia.
Import ListNotations.

Set Implicit Arguments.

(* ------------------------------------------------------------------ *)
(** ** JavaScript strings *)

Module JS.

(** A string is its sequence of UTF-16 code units. *)
Definition jsstring := list N.

(** A literal of the source, written with ASCII characters only. *)
Definition lit (s : string) : jsstring :=
  map N_of_ascii (list_ascii_of_string s).

(** [a === b] on strings. *)
Fixpoint eqb (a b : jsstring) : bool :=
  match a, b with
  | [], [] => true
  | x :: a', y :: b' => N.eqb x y && eqb a' b'
  | _, _ => false
  end.

(** The code units that [String.prototype.trim] removes: WhiteSpace and
    LineTerminator of ECMAScript (TAB, LF, VT, FF, CR, SP, NBSP, the
    Unicode space separators, LS, PS and the byte order mark). *)
Definition isWhiteSpace (c : N) : bool :=
  ((9 <=? c) && (c <=? 13)           (* U+0009 .. U+000D *)
   || (c =? 32)                      (* U+0020 *)
   || (c =? 160)                     (* U+00A0 *)
   || (c =? 5760)                    (* U+1680 *)
   || ((8192 <=? c) && (c <=? 8202)) (* U+2000 .. U+200A *)
   || (c =? 8232) || (c =? 8233)     (* U+2028, U+2029 *)
   || (c =? 8239)                    (* U+202F *)
   || (c =? 8287)                    (* U+205F *)
   || (c =? 12288)                   (* U+3000 *)
   || (c =? 65279))%N.               (* U+FEFF *)

Fixpoint trimStart (s : jsstring) : jsstring :=
  match s with
  | [] => []
  | c :: s' => if isWhiteSpace c then trimStart s' else s
  end.

Definition trimEnd (s : jsstring) : jsstring := rev (trimStart (rev s)).

Definition trim (s : jsstring) : jsstring := trimEnd (trimStart s).

(** A string used as a condition: the empty string is falsy. *)
Definition truthy (s : jsstring) : bool :=
  match s with [] => false | _ :: _ => true end.

Fixpoint startsWith (s p : jsstring) : bool :=
  match p, s with
  | [], _ => true
  | _ :: _, [] => false
  | x :: p', y :: s' => N.eqb x y && startsWith s' p'
  end.

(** [s.includes(p)] *)
Fixpoint includes (s p : jsstring) : bool :=
  startsWith s p || match s with [] => false | _ :: s' => includes s' p end.

(** Empty or made of white space only: the wording of the specification
    for the strings on which [trim] yields the empty string. *)
Definition blank (s : jsstring) : bool := forallb isWhiteSpace s.

End JS.
Import JS.


(* ------------------------------------------------------------------ *)
(** ** The world: state cells, browser capabilities, trace *)

(** [toast({ title, description, variant })] of [use-toast]. *)
Record toast := Toast {
  title : jsstring;
  description : jsstring;
  variant : jsstring }.

(** What a thrown value is to [error instanceof Error] and
    [error.message]. *)
Inductive thrown :=
| ErrorObject (message : jsstring)
| OtherValue.

(** How a promise settles. *)
Inductive settled :=
| Fulfilled (value : jsstring)
| Rejected (reason : thrown).

(** What the components do to the outside and to one another, in the
    order in which it happens. *)
Inductive event :=
| ToastShown (t : toast)
| SpeakCalled (text language : jsstring)        (* Index calls [speak] *)
| SynthesisCancel                               (* [speechSynthesis.cancel()] *)
| SynthesisSpeak (text lang : jsstring)         (* [speechSynthesis.speak(u)] *)
| TranslateCalled (text fromLang toLang : jsstring) (* Index calls [translateText] *)
| CompletionRequested (text fromLang toLang : jsstring) (* [chat.completions.create] *)
| FetchRequested                                (* [fetch] of the placeholder *)
| RecognitionStart
| RecognitionStop.

(** The closure of a [translateText(...).then(...)] whose promise is
    pending: the arguments of the call and the values of the render that
    the continuation captured. *)
Record request := Request {
  req_text : jsstring;
  req_from : jsstring;
  req_to : jsstring;
  req_isSpeaking : bool }.

(** The closure of the pending [setTimeout] of the auto-speak debounce. *)
Record timer := Timer {
  timer_text : jsstring;
  timer_lang : jsstring }.

Record world := World {
  (* pages/Index: useState *)
  activeTab : jsstring;                 (* tab snapshot only *)
  sourceLanguage : jsstring;
  targetLanguage : jsstring;
  originalText : jsstring;
  translatedText : jsstring;
  isRecording : bool;
  (* pages/Index: useRef *)
  speakTimeout : option timer;          (* the timer that has not fired *)
  lastSpokenTranslation : jsstring;
  hasSpokenOnce : bool;                 (* tab snapshot only *)
  (* hooks/useTranslation *)
  isTranslating : bool;
  translationService : bool;            (* Groq client created, or null *)
  (* hooks/useTextToSpeech *)
  isSpeaking : bool;
  (* components/VoiceRecorder *)
  isProcessing : bool;
  recognitionRef : bool;                (* recognitionRef.current is set *)
  (* the browser *)
  speechSynthesis : bool;               (* 'speechSynthesis' in window *)
  (* pending promises of translateText, oldest first *)
  inflight : list request;
  (* the trace *)
  log : list event }.

Definition setActiveTab (v : jsstring) (w : world) : world :=
  {| activeTab := v; sourceLanguage := sourceLanguage w;
     targetLanguage := targetLanguage w; originalText := originalText w;
     translatedText := translatedText w; isRecording := isRecording w;
     speakTimeout := speakTimeout w;
     lastSpokenTranslation := lastSpokenTranslation w;
     hasSpokenOnce := hasSpokenOnce w; isTranslating := isTranslating w;
     translationService := translationService w; isSpeaking := isSpeaking w;
     isProcessing := isProcessing w; recognitionRef := recognitionRef w;
     speechSynthesis := speechSynthesis w; inflight := inflight w;
     log := log w |}.

Definition setSourceLanguage (v : jsstring) (w : world) : world :=
  {| activeTab := activeTab w; sourceLanguage := v;
     targetLanguage := targetLanguage w; originalText := originalText w;
     translatedText := translatedText w; isRecording := isRecording w;
     speakTimeout := speakTimeout w;
     lastSpokenTranslation := lastSpokenTranslation w;
     hasSpokenOnce := hasSpokenOnce w; isTranslating := isTranslating w;
     translationService := translationService w; isSpeaking := isSpeaking w;
     isProcessing := isProcessing w; recognitionRef := recognitionRef w;
     speechSynthesis := speechSynthesis w; inflight := inflight w;
     log := log w |}.

Definition setTargetLanguage (v : jsstring) (w : world) : world :=
  {| activeTab := activeTab w; sourceLanguage := sourceLanguage w;
     targetLanguage := v; originalText := originalText w;
     translatedText := translatedText w; isRecording := isRecording w;
     speakTimeout := speakTimeout w;
     lastSpokenTranslation := lastSpokenTranslation w;
     hasSpokenOnce := hasSpokenOnce w; isTranslating := isTranslating w;
     translationService := translationService w; isSpeaking := isSpeaking w;
     isProcessing := isProcessing w; recognitionRef := recognitionRef w;
     speechSynthesis := speechSynthesis w; inflight := inflight w;
     log := log w |}.

Definition setOriginalText (v : jsstring) (w : world) : world :=
  {| activeTab := activeTab w; sourceLanguage := sourceLanguage w;
     targetLanguage := targetLanguage w; originalText := v;
     translatedText := translatedText w; isRecording := isRecording w;
     speakTimeout := speakTimeout w;
     lastSpokenTranslation := lastSpokenTranslation w;
     hasSpokenOnce := hasSpokenOnce w; isTranslating := isTranslating w;
     translationService := translationService w; isSpeaking := isSpeaking w;
     isProcessing := isProcessing w; recognitionRef := recognitionRef w;
     speechSynthesis := speechSynthesis w; inflight := inflight w;
     log := log w |}.

Definition setTranslatedText (v : jsstring) (w : world) : world :=
  {| activeTab := activeTab w; sourceLanguage := sourceLanguage w;
     targetLanguage := targetLanguage w; originalText := originalText w;
     translatedText := v; isRecording := isRecording w;
     speakTimeout := speakTimeout w;
     lastSpokenTranslation := lastSpokenTranslation w;
     hasSpokenOnce := hasSpokenOnce w; isTranslating := isTranslating w;
     translationService := translationService w; isSpeaking := isSpeaking w;
     isProcessing := isProcessing w; recognitionRef := recognitionRef w;
     speechSynthesis := speechSynthesis w; inflight := inflight w;
     log := log w |}.

Definition setIsRecording (v : bool) (w : world) : world :=
  {| activeTab := activeTab w; sourceLanguage := sourceLanguage w;
     targetLanguage := targetLanguage w; originalText := originalText w;
     translatedText := translatedText w; isRecording := v;
     speakTimeout := speakTimeout w;
     lastSpokenTranslation := lastSpokenTranslation w;
     hasSpokenOnce := hasSpokenOnce w; isTranslating := isTranslating w;
     translationService := translationService w; isSpeaking := isSpeaking w;
     isProcessing := isProcessing w; recognitionRef := recognitionRef w;
     speechSynthesis := speechSynthesis w; inflight := inflight w;
     log := log w |}.

Definition set_speakTimeout (v : option timer) (w : world) : world :=
  {| activeTab := activeTab w; sourceLanguage := sourceLanguage w;
     targetLanguage := targetLanguage w; originalText := originalText w;
     translatedText := translatedText w; isRecording := isRecording w;
     speakTimeout := v; lastSpokenTranslation := lastSpokenTranslation w;
     hasSpokenOnce := hasSpokenOnce w; isTranslating := isTranslating w;
     translationService := translationService w; isSpeaking := isSpeaking w;
     isProcessing := isProcessing w; recognitionRef := recognitionRef w;
     speechSynthesis := speechSynthesis w; inflight := inflight w;
     log := log w |}.

Definition set_lastSpokenTranslation (v : jsstring) (w : world) : world :=
  {| activeTab := activeTab w; sourceLanguage := sourceLanguage w;
     targetLanguage := targetLanguage w; originalText := originalText w;
     translatedText := translatedText w; isRecording := isRecording w;
     speakTimeout := speakTimeout w; lastSpokenTranslation := v;
     hasSpokenOnce := hasSpokenOnce w; isTranslating := isTranslating w;
     translationService := translationService w; isSpeaking := isSpeaking w;
     isProcessing := isProcessing w; recognitionRef := recognitionRef w;
     speechSynthesis := speechSynthesis w; inflight := inflight w;
     log := log w |}.

Definition set_hasSpokenOnce (v : bool) (w : world) : world :=
  {| activeTab := activeTab w; sourceLanguage := sourceLanguage w;
     targetLanguage := targetLanguage w; originalText := originalText w;
     translatedText := translatedText w; isRecording := isRecording w;
     speakTimeout := speakTimeout w;
     lastSpokenTranslation := lastSpokenTranslation w; hasSpokenOnce := v;
     isTranslating := isTranslating w;
     translationService := translationService w; isSpeaking := isSpeaking w;
     isProcessing := isProcessing w; recognitionRef := recognitionRef w;
     speechSynthesis := speechSynthesis w; inflight := inflight w;
     log := log w |}.

Definition setIsTranslating (v : bool) (w : world) : world :=
  {| activeTab := activeTab w; sourceLanguage := sourceLanguage w;
     targetLanguage := targetLanguage w; originalText := originalText w;
     translatedText := translatedText w; isRecording := isRecording w;
     speakTimeout := speakTimeout w;
     lastSpokenTranslation := lastSpokenTranslation w;
     hasSpokenOnce := hasSpokenOnce w; isTranslating := v;
     translationService := translationService w; isSpeaking := isSpeaking w;
     isProcessing := isProcessing w; recognitionRef := recognitionRef w;
     speechSynthesis := speechSynthesis w; inflight := inflight w;
     log := log w |}.

Definition setIsSpeaking (v : bool) (w : world) : world :=
  {| activeTab := activeTab w; sourceLanguage := sourceLanguage w;
     targetLanguage := targetLanguage w; originalText := originalText w;
     translatedText := translatedText w; isRecording := isRecording w;
     speakTimeout := speakTimeout w;
     lastSpokenTranslation := lastSpokenTranslation w;
     hasSpokenOnce := hasSpokenOnce w; isTranslating := isTranslating w;
     translationService := translationService w; isSpeaking := v;
     isProcessing := isProcessing w; recognitionRef := recognitionRef w;
     speechSynthesis := speechSynthesis w; inflight := inflight w;
     log := log w |}.

Definition setIsProcessing (v : bool) (w : world) : world :=
  {| activeTab := activeTab w; sourceLanguage := sourceLanguage w;
     targetLanguage := targetLanguage w; originalText := originalText w;
     translatedText := translatedText w; isRecording := isRecording w;
     speakTimeout := speakTimeout w;
     lastSpokenTranslation := lastSpokenTranslation w;
     hasSpokenOnce := hasSpokenOnce w; isTranslating := isTranslating w;
     translationService := translationService w; isSpeaking := isSpeaking w;
     isProcessing := v; recognitionRef := recognitionRef w;
     speechSynthesis := speechSynthesis w; inflight := inflight w;
     log := log w |}.

Definition set_inflight (v : list request) (w : world) : world :=
  {| activeTab := activeTab w; sourceLanguage := sourceLanguage w;
     targetLanguage := targetLanguage w; originalText := originalText w;
     translatedText := translatedText w; isRecording := isRecording w;
     speakTimeout := speakTimeout w;
     lastSpokenTranslation := lastSpokenTranslation w;
     hasSpokenOnce := hasSpokenOnce w; isTranslating := isTranslating w;
     translationService := translationService w; isSpeaking := isSpeaking w;
     isProcessing := isProcessing w; recognitionRef := recognitionRef w;
     speechSynthesis := speechSynthesis w; inflight := v; log := log w |}.

Definition set_log (v : list event) (w : world) : world :=
  {| activeTab := activeTab w; sourceLanguage := sourceLanguage w;
     targetLanguage := targetLanguage w; originalText := originalText w;
     translatedText := translatedText w; isRecording := isRecording w;
     speakTimeout := speakTimeout w;
     lastSpokenTranslation := lastSpokenTranslation w;
     hasSpokenOnce := hasSpokenOnce w; isTranslating := isTranslating w;
     translationService := translationService w; isSpeaking := isSpeaking w;
     isProcessing := isProcessing w; recognitionRef := recognitionRef w;
     speechSynthesis := speechSynthesis w; inflight := inflight w;
     log := v |}.

Definition emit (e : event) (w : world) : world := set_log (log w ++ [e]) w.

(** The state of a freshly mounted page, with every capability present. *)
Definition mounted : world :=
  {| activeTab := lit "patient"; sourceLanguage := lit "en";
     targetLanguage := lit "es"; originalText := []; translatedText := [];
     isRecording := false; speakTimeout := None;
     lastSpokenTranslation := []; hasSpokenOnce := false;
     isTranslating := false; translationService := true;
     isSpeaking := false; isProcessing := false; recognitionRef := true;
     speechSynthesis := true; inflight := []; log := [] |}.

(** *** Reading the trace *)

Definition toasts (l : list event) : list toast :=
  flat_map (fun e => match e with ToastShown t => [t] | _ => [] end) l.

(** The calls of [speak] made by the page, as (text, language). *)
Definition speakCalls (l : list event) : list (jsstring * jsstring) :=
  flat_map (fun e => match e with SpeakCalled t g => [(t, g)] | _ => [] end) l.

(* ------------------------------------------------------------------ *)
(** ** hooks/useTextToSpeech *)

Module TextToSpeech.

Definition notSupported : toast :=
  Toast (lit "Not Supported")
        (lit "Text-to-speech is not supported in this browser.")
        (lit "destructive").

Definition speechError : toast :=
  Toast (lit "Speech Error")
        (lit "Unable to play audio. Please try again.")
        (lit "destructive").

(** [speak(text, language)].  The utterance carries the text and the
    language; its rate, pitch and volume are constants of the source. *)
Definition speak (text language : jsstring) (w : world) : world :=
  if negb (truthy (trim text)) then w
  else if speechSynthesis w then
    emit (SynthesisSpeak text language) (emit SynthesisCancel w)
  else emit (ToastShown notSupported) w.

(** [utterance.onstart], [utterance.onend] *)
Definition onstart (w : world) : world := setIsSpeaking true w.
Definition onend (w : world) : world := setIsSpeaking false w.

(** [utterance.onerror], with [event.error] *)
Definition onerror (error : jsstring) (w : world) : world :=
  let w1 := setIsSpeaking false w in
  if negb (eqb error (lit "canceled"))
     && negb (eqb error (lit "interrupted"))
  then emit (ToastShown speechError) w1
  else w1.

Definition stopSpeaking (w : world) : world :=
  if speechSynthesis w then setIsSpeaking false (emit SynthesisCancel w)
  else w.

End TextToSpeech.

(* ------------------------------------------------------------------ *)
(** ** hooks/useTranslation *)

(** What an awaited call does: it yields a value or it throws. *)
Inductive outcome (A : Type) :=
| Resolves (a : A)
| Throws (e : thrown).
Arguments Resolves {A} a.
Arguments Throws {A} e.

(** Where [translateText] stands when its synchronous part is over. *)
Inductive started :=
| Returned (r : settled)   (* it returned before any [await] *)
| Awaiting.                (* it waits for the backend *)

(** [translateText] of a snapshot of the hook: [begin] is the code up to
    the [await], [resume] the code after it, given what the backend did. *)
Record useTranslation := UseTranslation {
  reply : Type;
  begin : jsstring -> jsstring -> jsstring -> world -> started * world;
  resume : jsstring -> jsstring -> jsstring -> outcome reply -> world ->
           settled * world }.

(** The whole of [translateText(text, fromLang, toLang)], given what the
    backend does if it is reached. *)
Definition translateText (H : useTranslation) (text fromLang toLang : jsstring)
    (o : outcome (reply H)) (w : world) : settled * world :=
  match begin H text fromLang toLang w with
  | (Returned r, w1) => (r, w1)
  | (Awaiting, w1) => resume H text fromLang toLang o w1
  end.

Definition translationError (errorMessage : jsstring) : toast :=
  Toast (lit "Translation Error") errorMessage (lit "destructive").

(** The snapshot that calls the Groq chat completion. *)
Module Groq.

Definition notInitialized : jsstring :=
  lit "Translation service not initialized".
Definition unableToTranslate : jsstring :=
  lit "Unable to translate text. Please try again.".
Definition authenticationFailed : jsstring :=
  lit "Authentication failed. Please check API configuration.".
Definition tooManyRequests : jsstring :=
  lit "Too many requests. Please try again later.".

Definition begin (text fromLang toLang : jsstring) (w : world)
    : started * world :=
  if negb (truthy (trim text)) then (Returned (Fulfilled []), w)
  else if negb (translationService w) then
    (Returned (Fulfilled text),
     emit (ToastShown (translationError notInitialized)) w)
  else
    (Awaiting,
     emit (CompletionRequested text fromLang toLang) (setIsTranslating true w)).

(** The body of [try] after the [await]: the trimmed content of the
    first choice ([None] when a link of the optional chain is missing),
    or what is thrown. *)
Definition tryBlock (o : outcome (option jsstring)) : jsstring + thrown :=
  match o with
  | Throws e => inr e
  | Resolves None => inr (ErrorObject (lit "No translation received"))
  | Resolves (Some content) =>
      let translatedText := trim content in
      if negb (truthy translatedText)
      then inr (ErrorObject (lit "No translation received"))
      else inl translatedText
  end.

(** The [errorMessage] of the [catch] block. *)
Definition errorMessage (error : thrown) : jsstring :=
  match error with
  | ErrorObject message =>
      if includes message (lit "401") then authenticationFailed
      else if includes message (lit "429") then tooManyRequests
      else unableToTranslate
  | OtherValue => unableToTranslate
  end.

Definition resume (text fromLang toLang : jsstring)
    (o : outcome (option jsstring)) (w : world) : settled * world :=
  let '(r, w1) :=
    match tryBlock o with
    | inl translatedText => (Fulfilled translatedText, w)
    | inr error =>
        (Fulfilled text,
         emit (ToastShown (translationError (errorMessage error))) w)
    end in
  (r, setIsTranslating false w1).            (* finally *)

Definition hook : useTranslation := UseTranslation begin resume.

End Groq.

(** The snapshot with the placeholder translation. *)
Module Placeholder.
Section WithUpperCase.

(** [String.prototype.toUpperCase], which the successful path applies
    to the target language. *)
Variable toUpperCase : jsstring -> jsstring.

Definition checkConnection : jsstring :=
  lit "Unable to translate text. Please check your connection and try again.".

Definition begin (text fromLang toLang : jsstring) (w : world)
    : started * world :=
  if negb (truthy (trim text)) then (Returned (Fulfilled []), w)
  else (Awaiting, emit FetchRequested (setIsTranslating true w)).

(** The body of [try] after the [await], given [response.ok]. *)
Definition tryBlock (text toLang : jsstring) (o : outcome bool)
    : jsstring + thrown :=
  match o with
  | Throws e => inr e
  | Resolves true => inl (lit "[" ++ toUpperCase toLang ++ lit "] " ++ text)
  | Resolves false => inr (ErrorObject (lit "Translation service unavailable"))
  end.

Definition resume (text fromLang toLang : jsstring) (o : outcome bool)
    (w : world) : settled * world :=
  let '(r, w1) :=
    match tryBlock text toLang o with
    | inl translation => (Fulfilled translation, w)
    | inr _ =>
        (Fulfilled text, emit (ToastShown (translationError checkConnection)) w)
    end in
  (r, setIsTranslating false w1).            (* finally *)

Definition hook : useTranslation := UseTranslation begin resume.

End WithUpperCase.
End Placeholder.

(* ------------------------------------------------------------------ *)
(** ** components/VoiceRecorder *)

Module VoiceRecorder.

Definition recognitionError : toast :=
  Toast (lit "Recognition Error")
        (lit "There was an issue with speech recognition. Please try again.")
        (lit "destructive").

(** [recognition.onerror]; [onRecordingChange] is [setIsRecording] of
    the page in both snapshots. *)
Definition onerror (error : jsstring) (w : world) : world :=
  emit (ToastShown recognitionError)
       (setIsRecording false (setIsProcessing false w)).

(** [recognition.onend] *)
Definition onend (w : world) : world :=
  setIsRecording false (setIsProcessing false w).

Definition startRecording (w : world) : world :=
  if recognitionRef w && negb (isRecording w) then
    emit RecognitionStart (setIsRecording true (setIsProcessing true w))
  else w.

Definition stopRecording (w : world) : world :=
  if recognitionRef w && isRecording w then emit RecognitionStop w else w.

End VoiceRecorder.

(* ------------------------------------------------------------------ *)
(** ** pages/Index *)

(** The page calls [speak] of [useTextToSpeech]; the trace keeps the call. *)
Definition callSpeak (text language : jsstring) (w : world) : world :=
  TextToSpeech.speak text language (emit (SpeakCalled text language) w).

Definition removeAt {A : Type} (n : nat) (l : list A) : list A :=
  firstn n l ++ skipn (S n) l.

(** The snapshot with the patient / provider tabs; the gate of the Speak
    button is the ref [hasSpokenOnce]. *)
Module Tabs.
Section Page.

Variable H : useTranslation.

(** The callback given to [.then]. *)
Definition onTranslation (translation : jsstring) (w : world) : world :=
  set_hasSpokenOnce false (setTranslatedText translation w).

(** [.then(...).catch(console.error)] on a settled promise. *)
Definition deliver (r : settled) (w : world) : world :=
  match r with
  | Fulfilled translation => onTranslation translation w
  | Rejected _ => w
  end.

(** The body of the auto-translate effect. *)
Definition autoTranslate (w : world) : world :=
  if truthy (trim (originalText w)) then
    let q := Request (originalText w) (sourceLanguage w) (targetLanguage w)
                     (isSpeaking w) in
    let '(s, w1) :=
      begin H (originalText w) (sourceLanguage w) (targetLanguage w)
        (emit (TranslateCalled (originalText w) (sourceLanguage w)
                               (targetLanguage w)) w) in
    match s with
    | Returned r => deliver r w1
    | Awaiting => set_inflight (inflight w1 ++ [q]) w1
    end
  else set_hasSpokenOnce false (setTranslatedText [] w).

(** The dependencies of the effect that change between the renders
    modelled here: [originalText, sourceLanguage, targetLanguage]. *)
Definition depsChanged (before after : world) : bool :=
  negb (eqb (originalText before) (originalText after)
        && eqb (sourceLanguage before) (sourceLanguage after)
        && eqb (targetLanguage before) (targetLanguage after)).

(** The render that follows an event: the effect runs again when one of
    its dependencies changed. *)
Definition render (before after : world) : world :=
  if depsChanged before after then autoTranslate after else after.

(** An event: its handler runs, then the page renders. *)
Definition dispatch (handler : world -> world) (w : world) : world :=
  render w (handler w).

(** The [n]-th pending call of [translateText] is resumed with what the
    backend did, and its promise settles. *)
Definition settle (n : nat) (o : outcome (reply H)) (w : world) : world :=
  match nth_error (inflight w) n with
  | None => w
  | Some q =>
      let '(r, w1) :=
        resume H (req_text q) (req_from q) (req_to q) o
               (set_inflight (removeAt n (inflight w)) w) in
      deliver r w1
  end.

Definition switchToTab (tab : jsstring) (w : world) : world :=
  let w1 := setActiveTab tab w in
  let w2 :=
    if eqb tab (lit "patient") then w1
    else
      let tempLang := sourceLanguage w in
      setTargetLanguage tempLang (setSourceLanguage (targetLanguage w) w1) in
  set_hasSpokenOnce false (setTranslatedText [] (setOriginalText [] w2)).

Definition handleSpeak (w : world) : world :=
  if negb (isSpeaking w) && truthy (trim (translatedText w))
     && negb (hasSpokenOnce w)
  then set_hasSpokenOnce true
         (callSpeak (translatedText w) (targetLanguage w) w)
  else w.

Definition clearTranscripts (w : world) : world :=
  set_hasSpokenOnce false (setTranslatedText [] (setOriginalText [] w)).

End Page.
End Tabs.

(** The snapshot with the "Switch Roles" button; the gate is the ref
    [lastSpokenTranslation], and a translation that arrives is spoken by
    itself after a debounce of 400 ms. *)
Module Toggle.
Section Page.

Variable H : useTranslation.

(** The callback given to [.then], in the closure [q] of its effect. *)
Definition onTranslation (q : request) (translation : jsstring) (w : world)
    : world :=
  let w1 := setTranslatedText translation w in
  if truthy (trim translation) && negb (req_isSpeaking q)
     && negb (eqb translation (lastSpokenTranslation w1))
  then set_speakTimeout (Some (Timer translation (req_to q))) w1
  else w1.

Definition deliver (q : request) (r : settled) (w : world) : world :=
  match r with
  | Fulfilled translation => onTranslation q translation w
  | Rejected _ => w
  end.

(** The callback of [setTimeout], 400 ms later. *)
Definition timeoutFires (w : world) : world :=
  match speakTimeout w with
  | None => w
  | Some t =>
      set_lastSpokenTranslation (timer_text t)
        (callSpeak (timer_text t) (timer_lang t) (set_speakTimeout None w))
  end.

(** The body of the auto-translate effect. *)
Definition autoTranslate (w : world) : world :=
  if truthy (trim (originalText w)) then
    let q := Request (originalText w) (sourceLanguage w) (targetLanguage w)
                     (isSpeaking w) in
    let '(s, w1) :=
      begin H (originalText w) (sourceLanguage w) (targetLanguage w)
        (emit (TranslateCalled (originalText w) (sourceLanguage w)
                               (targetLanguage w)) w) in
    match s with
    | Returned r => deliver q r w1
    | Awaiting => set_inflight (inflight w1 ++ [q]) w1
    end
  else setTranslatedText [] w.

(** The dependencies of the effect that change between the renders
    modelled here: [originalText, sourceLanguage, targetLanguage,
    isSpeaking]. *)
Definition depsChanged (before after : world) : bool :=
  negb (eqb (originalText before) (originalText after)
        && eqb (sourceLanguage before) (sourceLanguage after)
        && eqb (targetLanguage before) (targetLanguage after)
        && Bool.eqb (isSpeaking before) (isSpeaking after)).

Definition render (before after : world) : world :=
  if depsChanged before after then autoTranslate after else after.

Definition dispatch (handler : world -> world) (w : world) : world :=
  render w (handler w).

Definition settle (n : nat) (o : outcome (reply H)) (w : world) : world :=
  match nth_error (inflight w) n with
  | None => w
  | Some q =>
      let '(r, w1) :=
        resume H (req_text q) (req_from q) (req_to q) o
               (set_inflight (removeAt n (inflight w)) w) in
      deliver q r w1
  end.

Definition switchRoles (w : world) : world :=
  let tempLang := sourceLanguage w in
  setTranslatedText []
    (setOriginalText []
       (setTargetLanguage tempLang (setSourceLanguage (targetLanguage w) w))).

Definition handleSpeak (w : world) : world :=
  if negb (isSpeaking w) && truthy (trim (translatedText w))
     && negb (eqb (translatedText w) (lastSpokenTranslation w))
  then set_lastSpokenTranslation (translatedText w)
         (callSpeak (translatedText w) (targetLanguage w) w)
  else w.

Definition clearTranscripts (w : world) : world :=
  set_lastSpokenTranslation []
    (setTranslatedText [] (setOriginalText [] w)).

End Page.
End Toggle.

(* ------------------------------------------------------------------ *)
(** ** Runs of the page used as examples *)

(** Both runs start from the mounted page (English to Spanish, Groq
    client created) and let the Groq snapshot of the hook translate. *)
Module Scenario.

(** *** "OK" is said, then the roles are switched or the page cleared *)

Definition ok : jsstring := lit "OK".

(** The recorder delivers "OK", the backend answers "OK", and the
    debounce timer fires: the page says "OK". *)
Definition saying : world :=
  Toggle.timeoutFires
    (Toggle.settle Groq.hook 0 (Resolves (Some ok))
       (Toggle.dispatch Groq.hook (setOriginalText ok) mounted)).

(** The utterance starts and ends; [isSpeaking] is a dependency of the
    effect, so each of the two events translates "OK" once more, and
    the backend answers "OK" each time. *)
Definition heard : world :=
  Toggle.settle Groq.hook 0 (Resolves (Some ok))
    (Toggle.dispatch Groq.hook TextToSpeech.onend
       (Toggle.settle Groq.hook 0 (Resolves (Some ok))
          (Toggle.dispatch Groq.hook TextToSpeech.onstart saying))).

(** "OK" is dictated and translated to "OK" once more, the timer fires
    if one is pending, and the Speak button is pressed. *)
Definition again (w : world) : world :=
  Toggle.handleSpeak
    (Toggle.timeoutFires
       (Toggle.settle Groq.hook 0 (Resolves (Some ok))
          (Toggle.dispatch Groq.hook (setOriginalText ok) w))).

Definition switched : world := Toggle.dispatch Groq.hook Toggle.switchRoles heard.
Definition cleared : world :=
  Toggle.dispatch Groq.hook Toggle.clearTranscripts heard.

(** *** A translation is on the screen *)

Definition hello : jsstring := lit "Hello".
Definition hola : jsstring := lit "Hola".
Definition helloEveryone : jsstring := lit "Hello everyone".
Definition holaATodos : jsstring := lit "Hola a todos".

(** "Hello" was dictated and translated to "Hola"; nothing is being
    spoken and nothing was spoken yet. *)
Definition translated : world :=
  Tabs.settle Groq.hook 0 (Resolves (Some hola))
    (Tabs.dispatch Groq.hook (setOriginalText hello) mounted).

(** Toggle snapshot: "Hola" arrives and arms the debounce timer, the
    Speak button is pressed within the 400 ms, then the timer fires. *)
Definition toggleArmed : world :=
  Toggle.settle Groq.hook 0 (Resolves (Some hola))
    (Toggle.dispatch Groq.hook (setOriginalText hello) mounted).

Definition togglePressedThenFired : world :=
  Toggle.timeoutFires (Toggle.handleSpeak toggleArmed).

(** The same, with the utterance of the button already started when the
    timer fires. *)
Definition togglePressedStartedFired : world :=
  Toggle.timeoutFires
    (Toggle.dispatch Groq.hook TextToSpeech.onstart
       (Toggle.handleSpeak toggleArmed)).

(** *** Two translations in flight *)

Definition headache : jsstring := lit "I have a headache".
Definition headacheFever : jsstring := lit "I have a headache and a fever".
Definition dolor : jsstring := lit "Tengo dolor de cabeza".
Definition dolorFiebre : jsstring := lit "Tengo dolor de cabeza y fiebre".

(** The recorder delivers the first sentence, then the longer one,
    before the backend has answered: two promises are pending. *)
Definition tabsPending : world :=
  Tabs.dispatch Groq.hook (setOriginalText headacheFever)
    (Tabs.dispatch Groq.hook (setOriginalText headache) mounted).

(** The backend answers the second call first... *)
Definition tabsNewer : world :=
  Tabs.settle Groq.hook 1 (Resolves (Some dolorFiebre)) tabsPending.

(** ... and the first call last. *)
Definition tabsOlder : world :=
  Tabs.settle Groq.hook 0 (Resolves (Some dolor)) tabsNewer.

Definition togglePending : world :=
  Toggle.dispatch Groq.hook (setOriginalText headacheFever)
    (Toggle.dispatch Groq.hook (setOriginalText headache) mounted).

Definition toggleNewer : world :=
  Toggle.settle Groq.hook 1 (Resolves (Some dolorFiebre)) togglePending.

Definition toggleOlder : world :=
  Toggle.settle Groq.hook 0 (Resolves (Some dolor)) toggleNewer.

(** *** The backend fails *)

Definition whereDoesItHurt : jsstring := lit "Where does it hurt?".

(** Errors whose message starts with the HTTP status, as the Groq client
    throws them on a rejected key and on too many requests. *)
Definition unauthorized : thrown := ErrorObject (lit "401 Invalid API Key").
Definition rateLimited : thrown := ErrorObject (lit "429 Rate limit reached").

(** What [fetch] throws when the network is down. *)
Definition failedToFetch : thrown := ErrorObject (lit "Failed to fetch").

(** The placeholder snapshot of the hook, with a [toUpperCase] that the
    failing paths never reach. *)
Definition placeholder : useTranslation := Placeholder.hook (fun s => s).

End Scenario.

(* ------------------------------------------------------------------ *)
(** ** components/VoiceRecorder: results and the record button *)

Module Recorder.

(** [event.results[i]]: the transcript of its first alternative and
    [isFinal]. *)
Record result := Result {
  transcript : jsstring;
  isFinal : bool }.

(** The [for] loop of [recognition.onresult], from the results left to
    visit and the two strings built so far. *)
Fixpoint collect (results : list result)
    (finalTranscript interimTranscript : jsstring) : jsstring * jsstring :=
  match results with
  | [] => (finalTranscript, interimTranscript)
  | r :: rest =>
      if isFinal r
      then collect rest (finalTranscript ++ transcript r ++ lit " ")
                   interimTranscript
      else collect rest finalTranscript (interimTranscript ++ transcript r)
  end.

(** [recognition.onresult]: the argument of [onTranscript] when it is
    called, [None] when it is not. *)
Definition onresult (resultIndex : nat) (results : list result)
    : option jsstring :=
  let '(finalTranscript, interimTranscript) :=
    collect (skipn resultIndex results) [] [] in
  if truthy finalTranscript || truthy interimTranscript
  then Some (finalTranscript ++ interimTranscript)
  else None.

(** What happens to the record button and to the recognition. *)
Inductive action :=
| Press                      (* onMouseDown, onTouchStart *)
| Release                    (* onMouseUp, onMouseLeave, onTouchEnd *)
| Failed (error : jsstring)  (* recognition.onerror *)
| Ended.                     (* recognition.onend *)

Definition step (a : action) (w : world) : world :=
  match a with
  | Press => VoiceRecorder.startRecording w
  | Release => VoiceRecorder.stopRecording w
  | Failed error => VoiceRecorder.onerror error w
  | Ended => VoiceRecorder.onend w
  end.

Definition run (actions : list action) (w : world) : world :=
  fold_left (fun w a => step a w) actions w.

(** [disabled={isProcessing && !isRecording}], also the condition of the
    spinner. *)
Definition buttonDisabled (w : world) : bool :=
  isProcessing w && negb (isRecording w).

(** The calls of [recognition.start()] in a trace, and the actions that
    end a session. *)
Definition starts (l : list event) : nat :=
  length (filter (fun e => match e with RecognitionStart => true | _ => false end) l).

Definition endings (actions : list action) : nat :=
  length (filter (fun a => match a with Failed _ | Ended => true | _ => false end)
                 actions).

End Recorder.

(* ------------------------------------------------------------------ *)
(** ** pages/Index: what the buttons of the page are wired to *)

Module Wiring.
Section Page.

Variable H : useTranslation.

(** [onTranscript={setOriginalText}] under [recognition.onresult]. *)
Definition tabsResult (resultIndex : nat) (results : list Recorder.result)
    (w : world) : world :=
  match Recorder.onresult resultIndex results with
  | Some text => Tabs.dispatch H (setOriginalText text) w
  | None => w
  end.

Definition toggleResult (resultIndex : nat) (results : list Recorder.result)
    (w : world) : world :=
  match Recorder.onresult resultIndex results with
  | Some text => Toggle.dispatch H (setOriginalText text) w
  | None => w
  end.

(** The tabs are pressed one after the other. *)
Definition selectTabs (tabs : list jsstring) (w : world) : world :=
  fold_left (fun w tab => Tabs.dispatch H (Tabs.switchToTab tab) w) tabs w.

End Page.

(** A mounted page whose Groq client does not exist yet. *)
Definition noClient : world :=
  {| activeTab := lit "patient"; sourceLanguage := lit "en";
     targetLanguage := lit "es"; originalText := []; translatedText := [];
     isRecording := false; speakTimeout := None;
     lastSpokenTranslation := []; hasSpokenOnce := false;
     isTranslating := false; translationService := false;
     isSpeaking := false; isProcessing := false; recognitionRef := true;
     speechSynthesis := true; inflight := []; log := [] |}.

(** The [text] of the Translation panel:
    [isTranslating ? "Translating..." : translatedText]. *)
Definition translationPanel (w : world) : jsstring :=
  if isTranslating w then lit "Translating..." else translatedText w.

(** The presses that swap the languages: those of a tab that is not
    "patient". *)
Definition swapping (tabs : list jsstring) : nat :=
  length (filter (fun tab => negb (eqb tab (lit "patient"))) tabs).

End Wiring.

(* ------------------------------------------------------------------ *)
(** ** Facts used throughout *)

Section JSFacts.

Lemma eqb_spec (a b : jsstring) : reflect (a = b) (eqb a b).
Proof.
  revert b; induction a as [|x a IH]; intros [|y b]; simpl;
    try (constructor; congruence).
  destruct (N.eqb_spec x y) as [->|Hxy]; simpl.
  - destruct (IH b) as [->|Hab]; constructor; congruence.
  - constructor; congruence.
Qed.

Lemma eqb_refl (a : jsstring) : eqb a a = true.
Proof. destruct (eqb_spec a a); congruence. Qed.

Lemma eqb_neq (a b : jsstring) : a <> b -> eqb a b = false.
Proof. destruct (eqb_spec a b); congruence. Qed.

Lemma trimStart_blank (s : jsstring) : blank s = true -> trimStart s = [].
Proof.
  unfold blank; induction s as [|c s IH]; simpl; [reflexivity|].
  intros H; apply andb_prop in H as [Hc Hs]; rewrite Hc; auto.
Qed.

(** What [trimStart] leaves does not start with white space. *)
Lemma trimStart_head (s : jsstring) :
  match trimStart s with [] => True | c :: _ => isWhiteSpace c = false end.
Proof.
  induction s as [|c s IH]; simpl; [exact I|].
  destruct (isWhiteSpace c) eqn:E; [exact IH | exact E].
Qed.

Lemma trimStart_nil_blank (s : jsstring) : trimStart s = [] -> blank s = true.
Proof.
  unfold blank; induction s as [|c s IH]; simpl; [reflexivity|].
  destruct (isWhiteSpace c); [auto | discriminate].
Qed.

Lemma blank_rev (s : jsstring) : blank (rev s) = blank s.
Proof.
  unfold blank; induction s as [|c s IH]; simpl; [reflexivity|].
  rewrite forallb_app, IH; simpl.
  rewrite andb_true_r; apply andb_comm.
Qed.

(** [trim] yields the empty string exactly on the blank strings. *)
Lemma trim_blank (s : jsstring) : blank s = true -> trim s = [].
Proof.
  intros H; unfold trim, trimEnd.
  rewrite (trimStart_blank s H); reflexivity.
Qed.

Lemma trim_nil_blank (s : jsstring) : trim s = [] -> blank s = true.
Proof.
  unfold trim, trimEnd; intros H.
  assert (Hr : trimStart (rev (trimStart s)) = []).
  { rewrite <- (rev_involutive (trimStart (rev (trimStart s)))), H.
    reflexivity. }
  apply trimStart_nil_blank in Hr; rewrite blank_rev in Hr.
  apply trimStart_nil_blank.
  pose proof (trimStart_head s) as Hh.
  destruct (trimStart s) as [|c t]; [reflexivity|].
  unfold blank in Hr; simpl in Hr; rewrite Hh in Hr; discriminate.
Qed.

Lemma truthy_trim (s : jsstring) : truthy (trim s) = negb (blank s).
Proof.
  destruct (blank s) eqn:E.
  - rewrite (trim_blank s E); reflexivity.
  - destruct (trim s) eqn:T; [|reflexivity].
    apply trim_nil_blank in T; congruence.
Qed.

End JSFacts.

Section TraceFacts.

Lemma toasts_app (l l' : list event) : toasts (l ++ l') = toasts l ++ toasts l'.
Proof. apply flat_map_app. Qed.

Lemma speakCalls_app (l l' : list event) :
  speakCalls (l ++ l') = speakCalls l ++ speakCalls l'.
Proof. apply flat_map_app. Qed.

(** What a call of [speak] by the page adds to the trace when there is
    something to say. *)
Lemma callSpeak_log (text language : jsstring) (w : world) :
  blank text = false ->
  log (callSpeak text language w) =
    log w ++ SpeakCalled text language ::
      (if speechSynthesis w
       then [SynthesisCancel; SynthesisSpeak text language]
       else [ToastShown TextToSpeech.notSupported]).
Proof.
  intros Hb; unfold callSpeak, TextToSpeech.speak.
  rewrite truthy_trim, Hb; simpl.
  destruct (speechSynthesis w); simpl; rewrite <- ?app_assoc; reflexivity.
Qed.

Lemma callSpeak_speakCalls (text language : jsstring) (w : world) :
  speakCalls (log (callSpeak text language w)) =
    speakCalls (log w) ++ [(text, language)].
Proof.
  unfold callSpeak, TextToSpeech.speak; simpl.
  destruct (negb (truthy (trim text))); [|destruct (speechSynthesis w)]; simpl;
    rewrite ?speakCalls_app; simpl; rewrite ?app_nil_r; reflexivity.
Qed.

End TraceFacts.

(** The cells that [callSpeak] leaves alone. *)
Ltac speak_frame :=
  unfold callSpeak, TextToSpeech.speak;
  repeat match goal with
         | |- context [if ?b then _ else _] => destruct b
         end; reflexivity.

(* ------------------------------------------------------------------ *)
(** ** Speech output: the hook *)

(** C10.  With an empty or whitespace-only text, [speak(text, language)]
    does nothing at all: the world after the call is the world before it,
    so nothing reached the speech engine, no toast was shown, and
    [isSpeaking] and every other cell kept its value. *)
Theorem speak_blank_is_noop (text language : jsstring) (w : world) :
  blank text = true -> TextToSpeech.speak text language w = w.
Proof.
  intros Hb; unfold TextToSpeech.speak.
  rewrite truthy_trim, Hb; reflexivity.
Qed.

Lemma speak_blank_is_noop_witness :
  blank (lit "  ") = true
  /\ TextToSpeech.speak (lit "  ") (lit "es") mounted = mounted.
Proof.
  split; [reflexivity | apply speak_blank_is_noop; reflexivity].
Defined.

(** C8.  When an utterance reports an error, [isSpeaking] becomes false
    whatever the cause; a cause "canceled" or "interrupted" adds nothing
    to the trace (no toast), and any other cause adds exactly one event,
    the generic "Speech Error" toast. *)
Theorem utterance_onerror_notice (error : jsstring) (w : world) :
  isSpeaking (TextToSpeech.onerror error w) = false
  /\ (error = lit "canceled" \/ error = lit "interrupted" ->
      log (TextToSpeech.onerror error w) = log w)
  /\ (error <> lit "canceled" -> error <> lit "interrupted" ->
      log (TextToSpeech.onerror error w) =
        log w ++ [ToastShown TextToSpeech.speechError]).
Proof.
  unfold TextToSpeech.onerror.
  destruct (eqb_spec error (lit "canceled")) as [Hc|Hc];
    destruct (eqb_spec error (lit "interrupted")) as [Hi|Hi]; simpl;
    (split; [reflexivity|]); split; intros; try reflexivity;
    try contradiction; tauto.
Qed.

Lemma utterance_onerror_notice_witness :
  log (TextToSpeech.onerror (lit "interrupted") (setIsSpeaking true mounted)) = []
  /\ log (TextToSpeech.onerror (lit "network") (setIsSpeaking true mounted)) =
       [ToastShown TextToSpeech.speechError].
Proof.
  split.
  - apply (utterance_onerror_notice (lit "interrupted")
             (setIsSpeaking true mounted)).
    right; reflexivity.
  - apply (utterance_onerror_notice (lit "network")
             (setIsSpeaking true mounted));
      intros E; vm_compute in E; discriminate E.
Defined.

(* ------------------------------------------------------------------ *)
(** ** Speech capture *)

(** C7.  When the recognition reports an error, [isRecording] and
    [isProcessing] are false afterwards, in any state and for any error,
    and one toast is shown; the render that follows does not run the
    effect of either snapshot of the page, so the flags stay false. *)
Theorem recognition_onerror_stops_recording
    (H : useTranslation) (error : jsstring) (w : world) :
  let w' := VoiceRecorder.onerror error w in
  isRecording w' = false
  /\ isProcessing w' = false
  /\ log w' = log w ++ [ToastShown VoiceRecorder.recognitionError]
  /\ Tabs.dispatch H (VoiceRecorder.onerror error) w = w'
  /\ Toggle.dispatch H (VoiceRecorder.onerror error) w = w'.
Proof.
  simpl; repeat split.
  - unfold Tabs.dispatch, Tabs.render, Tabs.depsChanged; simpl.
    rewrite !eqb_refl; reflexivity.
  - unfold Toggle.dispatch, Toggle.render, Toggle.depsChanged; simpl.
    rewrite !eqb_refl, Bool.eqb_reflx; reflexivity.
Qed.

(* ------------------------------------------------------------------ *)
(** ** The page: clearing and switching *)

Section Clearing.

Variable H : useTranslation.

(** With an empty [originalText] the render that follows a handler
    leaves the world of the tab snapshot as it is, once the translation
    is empty and the gate is open. *)
Lemma Tabs_render_cleared (before w : world) :
  originalText w = [] -> translatedText w = [] -> hasSpokenOnce w = false ->
  Tabs.render H before w = w.
Proof.
  intros Ho Ht Hg; unfold Tabs.render, Tabs.autoTranslate.
  destruct (Tabs.depsChanged before w); [|reflexivity].
  rewrite Ho; simpl.
  destruct w; simpl in *; subst; reflexivity.
Qed.

Lemma Toggle_render_cleared (before w : world) :
  originalText w = [] -> translatedText w = [] ->
  Toggle.render H before w = w.
Proof.
  intros Ho Ht; unfold Toggle.render, Toggle.autoTranslate.
  destruct (Toggle.depsChanged before w); [|reflexivity].
  rewrite Ho; simpl.
  destruct w; simpl in *; subst; reflexivity.
Qed.

Lemma Tabs_dispatch_clearTranscripts (w : world) :
  Tabs.dispatch H Tabs.clearTranscripts w = Tabs.clearTranscripts w.
Proof. apply Tabs_render_cleared; reflexivity. Qed.

Lemma Toggle_dispatch_clearTranscripts (w : world) :
  Toggle.dispatch H Toggle.clearTranscripts w = Toggle.clearTranscripts w.
Proof. apply Toggle_render_cleared; reflexivity. Qed.

Lemma Tabs_dispatch_switchToTab (tab : jsstring) (w : world) :
  Tabs.dispatch H (Tabs.switchToTab tab) w = Tabs.switchToTab tab w.
Proof. apply Tabs_render_cleared; reflexivity. Qed.

Lemma Toggle_dispatch_switchRoles (w : world) :
  Toggle.dispatch H Toggle.switchRoles w = Toggle.switchRoles w.
Proof. apply Toggle_render_cleared; reflexivity. Qed.

(** Selecting a tab empties both transcripts and opens the gate
    [hasSpokenOnce]; the provider tab swaps the languages, the patient
    tab keeps them. *)
Lemma switchToTab_clears (tab : jsstring) (w : world) :
  let w' := Tabs.dispatch H (Tabs.switchToTab tab) w in
  originalText w' = [] /\ translatedText w' = [] /\ hasSpokenOnce w' = false
  /\ activeTab w' = tab
  /\ (tab = lit "patient" ->
      sourceLanguage w' = sourceLanguage w /\ targetLanguage w' = targetLanguage w)
  /\ (tab <> lit "patient" ->
      sourceLanguage w' = targetLanguage w /\ targetLanguage w' = sourceLanguage w).
Proof.
  simpl; rewrite Tabs_dispatch_switchToTab; unfold Tabs.switchToTab.
  destruct (eqb_spec tab (lit "patient")); simpl; repeat split;
    intros; try reflexivity; contradiction.
Qed.

(** "Switch Roles" empties both transcripts and swaps the languages; it
    does not write the ref [lastSpokenTranslation]. *)
Lemma switchRoles_clears_transcripts (w : world) :
  let w' := Toggle.dispatch H Toggle.switchRoles w in
  originalText w' = [] /\ translatedText w' = []
  /\ sourceLanguage w' = targetLanguage w /\ targetLanguage w' = sourceLanguage w
  /\ lastSpokenTranslation w' = lastSpokenTranslation w.
Proof.
  simpl; rewrite Toggle_dispatch_switchRoles; repeat split.
Qed.

End Clearing.

(** C9.  In both snapshots [clearTranscripts] leaves [originalText] and
    [translatedText] empty and the gate reset ([hasSpokenOnce] false in
    the tab snapshot, [lastSpokenTranslation] empty in the other one),
    and it keeps the active tab, the source language and the target
    language; the render that follows changes nothing more. *)
Theorem clearTranscripts_clears_and_keeps_languages
    (H : useTranslation) (w : world) :
  let t := Tabs.dispatch H Tabs.clearTranscripts w in
  let g := Toggle.dispatch H Toggle.clearTranscripts w in
  (t = Tabs.clearTranscripts w
   /\ originalText t = [] /\ translatedText t = [] /\ hasSpokenOnce t = false
   /\ activeTab t = activeTab w
   /\ sourceLanguage t = sourceLanguage w /\ targetLanguage t = targetLanguage w)
  /\ (g = Toggle.clearTranscripts w
      /\ originalText g = [] /\ translatedText g = []
      /\ lastSpokenTranslation g = []
      /\ sourceLanguage g = sourceLanguage w /\ targetLanguage g = targetLanguage w).
Proof.
  simpl; rewrite Tabs_dispatch_clearTranscripts, Toggle_dispatch_clearTranscripts.
  repeat split.
Qed.

(** C6.  Under the toggle policy [switchRoles] swaps the two languages,
    so pressing "Switch Roles" twice, each press followed by its render,
    gives back the source language and the target language one started
    with. *)
Theorem switchRoles_twice_restores_languages (H : useTranslation) (w : world) :
  let once := Toggle.dispatch H Toggle.switchRoles w in
  let twice := Toggle.dispatch H Toggle.switchRoles once in
  (sourceLanguage once = targetLanguage w /\ targetLanguage once = sourceLanguage w)
  /\ (sourceLanguage twice = sourceLanguage w /\ targetLanguage twice = targetLanguage w)
  /\ twice = Toggle.switchRoles (Toggle.switchRoles w).
Proof.
  simpl; rewrite !Toggle_dispatch_switchRoles; repeat split.
Qed.

(* ------------------------------------------------------------------ *)
(** ** The page: an empty transcript *)

(** C5.  When the recorder or a clear button sets [originalText] to a
    text that is empty or whitespace-only, and that is a change of
    [originalText], the render that follows runs the effect of either
    snapshot, which leaves [translatedText] empty without calling
    [translateText]: nothing is added to the trace and no promise is
    pending more than before.  And should [translateText] be called with
    such a text, it returns the empty string at once in both snapshots of
    the hook, without reaching the backend and without a toast. *)
Theorem blank_transcript_clears_translation
    (H : useTranslation) (text : jsstring) (w : world) :
  blank text = true ->
  text <> originalText w ->
  let t := Tabs.dispatch H (setOriginalText text) w in
  let g := Toggle.dispatch H (setOriginalText text) w in
  (originalText t = text /\ translatedText t = []
   /\ log t = log w /\ inflight t = inflight w)
  /\ (originalText g = text /\ translatedText g = []
      /\ log g = log w /\ inflight g = inflight w)
  /\ (forall fromLang toLang o,
        translateText Groq.hook text fromLang toLang o w = (Fulfilled [], w))
  /\ (forall toUpperCase fromLang toLang o,
        translateText (Placeholder.hook toUpperCase) text fromLang toLang o w
        = (Fulfilled [], w)).
Proof.
  intros Hb Hn; simpl.
  unfold Tabs.dispatch, Toggle.dispatch, Tabs.render, Toggle.render,
         Tabs.depsChanged, Toggle.depsChanged; simpl.
  rewrite (eqb_neq (fun E => Hn (eq_sym E))); simpl.
  unfold Tabs.autoTranslate, Toggle.autoTranslate, translateText; simpl.
  unfold Groq.begin, Placeholder.begin.
  rewrite truthy_trim, Hb; simpl.
  repeat split.
Qed.

Lemma blank_transcript_clears_translation_witness :
  (blank (lit " ") = true
   /\ originalText Scenario.translated = Scenario.hello
   /\ translatedText Scenario.translated = Scenario.hola)
  /\ translatedText
       (Tabs.dispatch Groq.hook (setOriginalText (lit " ")) Scenario.translated)
     = []
  /\ translatedText
       (Toggle.dispatch Groq.hook (setOriginalText (lit " ")) Scenario.translated)
     = []
  /\ log (Toggle.dispatch Groq.hook (setOriginalText (lit " ")) Scenario.translated)
     = log Scenario.translated.
Proof.
  split; [repeat split|].
  assert (Hn : lit " " <> originalText Scenario.translated)
    by (intros E; vm_compute in E; discriminate E).
  destruct (@blank_transcript_clears_translation Groq.hook (lit " ")
              Scenario.translated eq_refl Hn)
    as ((_ & A & _) & (_ & B & C & _) & _).
  split; [exact A|]; split; [exact B | exact C].
Defined.

(* ------------------------------------------------------------------ *)
(** ** The page: switching roles and the gate *)

(** C4.  The toggle snapshot at work: the page has said "OK"; after
    "Switch Roles" both transcripts are empty and the languages are
    swapped, but [lastSpokenTranslation] is still "OK", so when "OK" is
    dictated and translated to "OK" again no timer is armed and the Speak
    button does nothing: [speak] was called once in all.  After
    [clearTranscripts] instead, which empties the ref, the same steps call
    [speak] a second time. *)
Theorem switchRoles_leaves_gate_closed :
  (originalText Scenario.switched = [] /\ translatedText Scenario.switched = []
   /\ sourceLanguage Scenario.switched = lit "es"
   /\ targetLanguage Scenario.switched = lit "en")
  /\ lastSpokenTranslation Scenario.heard = Scenario.ok
  /\ lastSpokenTranslation Scenario.switched = Scenario.ok
  /\ lastSpokenTranslation Scenario.cleared = []
  /\ translatedText (Scenario.again Scenario.switched) = Scenario.ok
  /\ speakCalls (log (Scenario.again Scenario.switched))
     = [(Scenario.ok, lit "es")]
  /\ speakCalls (log (Scenario.again Scenario.cleared))
     = [(Scenario.ok, lit "es"); (Scenario.ok, lit "es")].
Proof. vm_compute; repeat split. Qed.

(* ------------------------------------------------------------------ *)
(** ** The page: the Speak button *)

Section SpeakGate.

(** [callSpeak] writes the trace only. *)
Lemma callSpeak_frame (text language : jsstring) (w : world) :
  translatedText (callSpeak text language w) = translatedText w
  /\ targetLanguage (callSpeak text language w) = targetLanguage w
  /\ isSpeaking (callSpeak text language w) = isSpeaking w
  /\ hasSpokenOnce (callSpeak text language w) = hasSpokenOnce w
  /\ lastSpokenTranslation (callSpeak text language w) = lastSpokenTranslation w
  /\ speechSynthesis (callSpeak text language w) = speechSynthesis w.
Proof. repeat split; speak_frame. Qed.

(** The gate of the tab snapshot: once [hasSpokenOnce] is set, the
    handler does nothing, whatever the other cells hold. *)
Lemma Tabs_handleSpeak_closed (v : world) :
  hasSpokenOnce v = true -> Tabs.handleSpeak v = v.
Proof.
  intros Hg; unfold Tabs.handleSpeak; rewrite Hg, andb_false_r; reflexivity.
Qed.

(** The gate of the toggle snapshot: while [translatedText] is the text
    last spoken, the handler does nothing. *)
Lemma Toggle_handleSpeak_closed (v : world) :
  lastSpokenTranslation v = translatedText v -> Toggle.handleSpeak v = v.
Proof.
  intros Hg; unfold Toggle.handleSpeak.
  rewrite Hg, eqb_refl, andb_false_r; reflexivity.
Qed.

(** What the handler does when its guard holds. *)
Lemma Tabs_handleSpeak_open (w : world) :
  isSpeaking w = false -> blank (translatedText w) = false ->
  hasSpokenOnce w = false ->
  Tabs.handleSpeak w =
    set_hasSpokenOnce true (callSpeak (translatedText w) (targetLanguage w) w).
Proof.
  intros Hs Hb Hg; unfold Tabs.handleSpeak.
  rewrite Hs, Hg, truthy_trim, Hb; reflexivity.
Qed.

Lemma Toggle_handleSpeak_open (w : world) :
  isSpeaking w = false -> blank (translatedText w) = false ->
  translatedText w <> lastSpokenTranslation w ->
  Toggle.handleSpeak w =
    set_lastSpokenTranslation (translatedText w)
      (callSpeak (translatedText w) (targetLanguage w) w).
Proof.
  intros Hs Hb Hg; unfold Toggle.handleSpeak.
  rewrite Hs, truthy_trim, Hb, (eqb_neq Hg); reflexivity.
Qed.

(** A second call in a row changes nothing. *)
Lemma Tabs_handleSpeak_idempotent (v : world) :
  Tabs.handleSpeak (Tabs.handleSpeak v) = Tabs.handleSpeak v.
Proof.
  unfold Tabs.handleSpeak at 2 3.
  destruct (negb (isSpeaking v) && truthy (trim (translatedText v))
            && negb (hasSpokenOnce v)) eqn:G.
  - apply Tabs_handleSpeak_closed; reflexivity.
  - unfold Tabs.handleSpeak; rewrite G; reflexivity.
Qed.

Lemma Toggle_handleSpeak_idempotent (v : world) :
  Toggle.handleSpeak (Toggle.handleSpeak v) = Toggle.handleSpeak v.
Proof.
  unfold Toggle.handleSpeak at 2 3.
  destruct (negb (isSpeaking v) && truthy (trim (translatedText v))
            && negb (eqb (translatedText v) (lastSpokenTranslation v))) eqn:G.
  - apply Toggle_handleSpeak_closed; simpl.
    symmetry; apply callSpeak_frame.
  - unfold Toggle.handleSpeak; rewrite G; reflexivity.
Qed.

Lemma iter_idempotent (f : world -> world) :
  (forall v, f (f v) = f v) ->
  forall n v, Nat.iter (S n) f v = f v.
Proof.
  intros Hf n v; induction n as [|n IH]; [reflexivity|].
  change (f (Nat.iter (S n) f v) = f v); rewrite IH; apply Hf.
Qed.

(** One call adds at most one call of [speak] to the trace. *)
Lemma Tabs_handleSpeak_at_most_one (v : world) :
  length (speakCalls (log (Tabs.handleSpeak v)))
  <= S (length (speakCalls (log v))).
Proof.
  unfold Tabs.handleSpeak.
  destruct (negb (isSpeaking v) && truthy (trim (translatedText v))
            && negb (hasSpokenOnce v)); [simpl|lia].
  rewrite callSpeak_speakCalls, length_app; simpl; lia.
Qed.

Lemma Toggle_handleSpeak_at_most_one (v : world) :
  length (speakCalls (log (Toggle.handleSpeak v)))
  <= S (length (speakCalls (log v))).
Proof.
  unfold Toggle.handleSpeak.
  destruct (negb (isSpeaking v) && truthy (trim (translatedText v))
            && negb (eqb (translatedText v) (lastSpokenTranslation v)));
    [simpl|lia].
  rewrite callSpeak_speakCalls, length_app; simpl; lia.
Qed.

End SpeakGate.

(** X16.  Let [translatedText] hold something other
    than white space while nothing is being spoken.  If the gate is open
    ([hasSpokenOnce] false in the tab snapshot, [translatedText] different
    from [lastSpokenTranslation] in the toggle snapshot), two calls of
    [handleSpeak] in a row call [speak] exactly once, with the translation
    and the target language, and leave the gate closed; the trace gains
    that call and what the hook makes of it, one utterance when the
    browser has speech synthesis and a toast otherwise.  In any world [v]
    a closed gate makes [handleSpeak] do nothing, whatever the other cells
    hold, and [n] calls in a row call [speak] at most once. *)
Theorem handleSpeak_speaks_once (w v : world) (n : nat) :
  isSpeaking w = false ->
  blank (translatedText w) = false ->
  let said :=
    SpeakCalled (translatedText w) (targetLanguage w)
    :: (if speechSynthesis w
        then [SynthesisCancel;
              SynthesisSpeak (translatedText w) (targetLanguage w)]
        else [ToastShown TextToSpeech.notSupported]) in
  (hasSpokenOnce w = false ->
     speakCalls (log (Tabs.handleSpeak (Tabs.handleSpeak w)))
     = speakCalls (log w) ++ [(translatedText w, targetLanguage w)]
     /\ log (Tabs.handleSpeak (Tabs.handleSpeak w)) = log w ++ said
     /\ hasSpokenOnce (Tabs.handleSpeak w) = true)
  /\ (translatedText w <> lastSpokenTranslation w ->
     speakCalls (log (Toggle.handleSpeak (Toggle.handleSpeak w)))
     = speakCalls (log w) ++ [(translatedText w, targetLanguage w)]
     /\ log (Toggle.handleSpeak (Toggle.handleSpeak w)) = log w ++ said
     /\ lastSpokenTranslation (Toggle.handleSpeak w)
        = translatedText (Toggle.handleSpeak w))
  /\ (hasSpokenOnce v = true -> Tabs.handleSpeak v = v)
  /\ (lastSpokenTranslation v = translatedText v -> Toggle.handleSpeak v = v)
  /\ length (speakCalls (log (Nat.iter n Tabs.handleSpeak v)))
     <= S (length (speakCalls (log v)))
  /\ length (speakCalls (log (Nat.iter n Toggle.handleSpeak v)))
     <= S (length (speakCalls (log v))).
Proof.
  intros Hs Hb; simpl; repeat apply conj.
  - intros Hg; rewrite Tabs_handleSpeak_idempotent.
    rewrite (Tabs_handleSpeak_open w Hs Hb Hg); simpl.
    rewrite callSpeak_speakCalls, callSpeak_log by exact Hb; repeat split.
  - intros Hg; rewrite Toggle_handleSpeak_idempotent.
    rewrite (Toggle_handleSpeak_open w Hs Hb Hg); simpl.
    rewrite callSpeak_speakCalls, callSpeak_log by exact Hb.
    repeat split; symmetry; apply callSpeak_frame.
  - apply Tabs_handleSpeak_closed.
  - apply Toggle_handleSpeak_closed.
  - destruct n as [|n]; [simpl; lia|].
    rewrite (iter_idempotent _ Tabs_handleSpeak_idempotent).
    apply Tabs_handleSpeak_at_most_one.
  - destruct n as [|n]; [simpl; lia|].
    rewrite (iter_idempotent _ Toggle_handleSpeak_idempotent).
    apply Toggle_handleSpeak_at_most_one.
Qed.

Lemma handleSpeak_speaks_once_witness :
  (isSpeaking Scenario.translated = false
   /\ blank (translatedText Scenario.translated) = false)
  /\ speakCalls (log (Tabs.handleSpeak (Tabs.handleSpeak Scenario.translated)))
     = [(Scenario.hola, lit "es")]
  /\ speakCalls (log (Toggle.handleSpeak (Toggle.handleSpeak Scenario.translated)))
     = [(Scenario.hola, lit "es")].
Proof.
  split; [split; reflexivity|].
  destruct (handleSpeak_speaks_once Scenario.translated Scenario.translated 2
              eq_refl eq_refl) as (T & G & _).
  split.
  - apply T; reflexivity.
  - apply G; intros E; vm_compute in E; discriminate E.
Defined.

(** C1.  The toggle snapshot speaks one translation twice.  "Hola"
    arrives and arms the debounce timer; nothing is being spoken, so the
    Speak button is enabled, and it is pressed within the 400 ms:
    [handleSpeak] calls [speak] with "Hola" and records it in
    [lastSpokenTranslation].  Then the timer fires and calls [speak] with
    "Hola" again, without reading [lastSpokenTranslation] or
    [isSpeaking], whether or not the first utterance has started:
    [translatedText] never changed and the gate was never reset, yet
    [speak] was called twice for it. *)
Theorem timer_repeats_spoken_translation :
  (translatedText Scenario.toggleArmed = Scenario.hola
   /\ isSpeaking Scenario.toggleArmed = false
   /\ lastSpokenTranslation Scenario.toggleArmed = []
   /\ speakTimeout Scenario.toggleArmed = Some (Timer Scenario.hola (lit "es"))
   /\ speakCalls (log Scenario.toggleArmed) = [])
  /\ (translatedText (Toggle.handleSpeak Scenario.toggleArmed) = Scenario.hola
      /\ lastSpokenTranslation (Toggle.handleSpeak Scenario.toggleArmed)
         = Scenario.hola
      /\ speakCalls (log (Toggle.handleSpeak Scenario.toggleArmed))
         = [(Scenario.hola, lit "es")])
  /\ (translatedText Scenario.togglePressedThenFired = Scenario.hola
      /\ speakCalls (log Scenario.togglePressedThenFired)
         = [(Scenario.hola, lit "es"); (Scenario.hola, lit "es")])
  /\ (translatedText Scenario.togglePressedStartedFired = Scenario.hola
      /\ isSpeaking Scenario.togglePressedStartedFired = true
      /\ speakCalls (log Scenario.togglePressedStartedFired)
         = [(Scenario.hola, lit "es"); (Scenario.hola, lit "es")]).
Proof. vm_compute; repeat split. Qed.

(* ------------------------------------------------------------------ *)
(** ** The page: translations that arrive *)

Section Settling.

Variable H : useTranslation.

(** [onTranslation] writes the translation, in both snapshots. *)
Lemma Tabs_onTranslation_translatedText (v : jsstring) (w : world) :
  translatedText (Tabs.onTranslation v w) = v.
Proof. reflexivity. Qed.

Lemma Toggle_onTranslation_translatedText (q : request) (v : jsstring) (w : world) :
  translatedText (Toggle.onTranslation q v w) = v.
Proof.
  unfold Toggle.onTranslation.
  destruct (truthy (trim v) && negb (req_isSpeaking q)
            && negb (eqb v (lastSpokenTranslation (setTranslatedText v w))));
    reflexivity.
Qed.

(** Neither snapshot writes [originalText] when a promise settles, as
    long as the hook does not. *)
Lemma Tabs_onTranslation_originalText (v : jsstring) (w : world) :
  originalText (Tabs.onTranslation v w) = originalText w.
Proof. reflexivity. Qed.

Lemma Toggle_onTranslation_originalText (q : request) (v : jsstring) (w : world) :
  originalText (Toggle.onTranslation q v w) = originalText w.
Proof.
  unfold Toggle.onTranslation.
  destruct (truthy (trim v) && negb (req_isSpeaking q)
            && negb (eqb v (lastSpokenTranslation (setTranslatedText v w))));
    reflexivity.
Qed.

End Settling.

(** C2, as the code has it.  When the promise of a pending call of
    [translateText] is fulfilled with [v], both snapshots write [v] to
    [translatedText].  Nothing compares the request [q] with the current
    [originalText] or with the calls made after it, so the promise that
    settles last wins, whichever call it belongs to. *)
Theorem settle_writes_translation
    (H : useTranslation) (n : nat) (o : outcome (reply H)) (w : world)
    (q : request) (v : jsstring) (w1 : world) :
  nth_error (inflight w) n = Some q ->
  resume H (req_text q) (req_from q) (req_to q) o
         (set_inflight (removeAt n (inflight w)) w) = (Fulfilled v, w1) ->
  translatedText (Tabs.settle H n o w) = v
  /\ translatedText (Toggle.settle H n o w) = v
  /\ originalText (Tabs.settle H n o w) = originalText w1
  /\ originalText (Toggle.settle H n o w) = originalText w1.
Proof.
  intros Hq Hr; unfold Tabs.settle, Toggle.settle.
  rewrite Hq, Hr; simpl.
  rewrite Toggle_onTranslation_translatedText, Toggle_onTranslation_originalText.
  repeat split.
Qed.

Lemma settle_writes_translation_witness :
  nth_error (inflight Scenario.tabsNewer) 0
  = Some (Request Scenario.headache (lit "en") (lit "es") false)
  /\ originalText Scenario.tabsNewer = Scenario.headacheFever
  /\ translatedText (Tabs.settle Groq.hook 0 (Resolves (Some Scenario.dolor))
                       Scenario.tabsNewer) = Scenario.dolor
  /\ translatedText (Toggle.settle Groq.hook 0 (Resolves (Some Scenario.dolor))
                       Scenario.tabsNewer) = Scenario.dolor.
Proof.
  split; [reflexivity|]; split; [reflexivity|].
  destruct (@settle_writes_translation Groq.hook 0
              (Resolves (Some Scenario.dolor)) Scenario.tabsNewer
              (Request Scenario.headache (lit "en") (lit "es") false)
              Scenario.dolor
              (snd (Groq.resume Scenario.headache (lit "en") (lit "es")
                      (Resolves (Some Scenario.dolor))
                      (set_inflight [] Scenario.tabsNewer)))
              eq_refl eq_refl) as (T & G & _).
  split; assumption.
Defined.

(** C2, as stated, fails.  "I have a headache" is sent for translation,
    then the transcript becomes "I have a headache and a fever" before the
    first answer is there.  The second answer arrives and is shown; then
    the first answer arrives and replaces it, so the page shows the
    translation of the shorter sentence under the longer one. *)
Lemma stale_translation_overwrites :
  (length (inflight Scenario.tabsPending) = 2
   /\ translatedText Scenario.tabsNewer = Scenario.dolorFiebre
   /\ originalText Scenario.tabsOlder = Scenario.headacheFever
   /\ inflight Scenario.tabsOlder = []
   /\ translatedText Scenario.tabsOlder = Scenario.dolor
   /\ eqb (translatedText Scenario.tabsOlder) Scenario.dolorFiebre = false)
  /\ (length (inflight Scenario.togglePending) = 2
      /\ translatedText Scenario.toggleNewer = Scenario.dolorFiebre
      /\ originalText Scenario.toggleOlder = Scenario.headacheFever
      /\ inflight Scenario.toggleOlder = []
      /\ translatedText Scenario.toggleOlder = Scenario.dolor
      /\ eqb (translatedText Scenario.toggleOlder) Scenario.dolorFiebre = false).
Proof. vm_compute; repeat split. Qed.

(* ------------------------------------------------------------------ *)
(** ** The translation hook: failures *)

Section Fallback.

Lemma Groq_descriptions_distinct :
  Groq.authenticationFailed <> Groq.tooManyRequests
  /\ Groq.authenticationFailed <> Groq.unableToTranslate
  /\ Groq.tooManyRequests <> Groq.unableToTranslate.
Proof. repeat split; intros E; vm_compute in E; discriminate E. Qed.

(** The Groq snapshot, from the [await] on, when the call throws. *)
Lemma Groq_resume_throws (text fromLang toLang : jsstring) (e : thrown) (w : world) :
  Groq.resume text fromLang toLang (Throws e) w
  = (Fulfilled text,
     setIsTranslating false
       (emit (ToastShown (translationError (Groq.errorMessage e))) w)).
Proof. reflexivity. Qed.

(** An answer without content is a failure of the generic kind. *)
Lemma Groq_resume_no_content (text fromLang toLang : jsstring) (w : world) :
  Groq.resume text fromLang toLang (Resolves None) w
  = (Fulfilled text,
     setIsTranslating false
       (emit (ToastShown (translationError Groq.unableToTranslate)) w)).
Proof. reflexivity. Qed.

(** Whatever the backend does, neither snapshot of [translateText]
    rejects its promise. *)
Lemma Groq_never_rejects (text fromLang toLang : jsstring)
    (o : outcome (option jsstring)) (w : world) :
  exists v, fst (translateText Groq.hook text fromLang toLang o w) = Fulfilled v.
Proof.
  unfold translateText; simpl; unfold Groq.begin, Groq.resume.
  destruct (negb (truthy (trim text))); [eexists; reflexivity|].
  destruct (negb (translationService w)); [eexists; reflexivity|].
  destruct (Groq.tryBlock o); eexists; reflexivity.
Qed.

Lemma Placeholder_never_rejects (up : jsstring -> jsstring)
    (text fromLang toLang : jsstring) (o : outcome bool) (w : world) :
  exists v,
    fst (translateText (Placeholder.hook up) text fromLang toLang o w)
    = Fulfilled v.
Proof.
  unfold translateText; simpl; unfold Placeholder.begin, Placeholder.resume.
  destruct (negb (truthy (trim text))); [eexists; reflexivity|].
  destruct (Placeholder.tryBlock up text toLang o); eexists; reflexivity.
Qed.

End Fallback.

(** C3, as the code has it.  Let the text hold something other than white
    space and let the Groq client exist.  When the backend call throws
    [e], [translateText] of either snapshot fulfils its promise with the
    text it was given and shows exactly one toast, titled "Translation
    Error".  In the Groq snapshot the description is one of three fixed
    sentences: the authentication one when [e] is an [Error] whose message
    contains "401", else the rate-limit one when the message contains
    "429", else the generic one; the three differ.  In the placeholder
    snapshot the description is the same connection sentence for every
    failure, a thrown value as well as a response that is not ok.  On the
    page, the fallback text becomes [translatedText]. *)
Theorem translateText_falls_back
    (toUpperCase : jsstring -> jsstring) (text fromLang toLang : jsstring)
    (e : thrown) (w : world) :
  blank text = false ->
  translationService w = true ->
  let groq := translateText Groq.hook text fromLang toLang (Throws e) w in
  let thrownAt :=
    translateText (Placeholder.hook toUpperCase) text fromLang toLang (Throws e) w in
  let notOk :=
    translateText (Placeholder.hook toUpperCase) text fromLang toLang
                  (Resolves false) w in
  (fst groq = Fulfilled text
   /\ toasts (log (snd groq))
      = toasts (log w)
        ++ [translationError
              match e with
              | ErrorObject message =>
                  if includes message (lit "401") then Groq.authenticationFailed
                  else if includes message (lit "429") then Groq.tooManyRequests
                  else Groq.unableToTranslate
              | OtherValue => Groq.unableToTranslate
              end]
   /\ isTranslating (snd groq) = false)
  /\ (Groq.authenticationFailed <> Groq.tooManyRequests
      /\ Groq.authenticationFailed <> Groq.unableToTranslate
      /\ Groq.tooManyRequests <> Groq.unableToTranslate)
  /\ (fst thrownAt = Fulfilled text
      /\ toasts (log (snd thrownAt))
         = toasts (log w) ++ [translationError Placeholder.checkConnection]
      /\ isTranslating (snd thrownAt) = false)
  /\ (fst notOk = Fulfilled text
      /\ toasts (log (snd notOk))
         = toasts (log w) ++ [translationError Placeholder.checkConnection]
      /\ isTranslating (snd notOk) = false)
  /\ (forall n q,
        nth_error (inflight w) n = Some q ->
        translatedText (Tabs.settle Groq.hook n (Throws e) w) = req_text q
        /\ translatedText (Toggle.settle Groq.hook n (Throws e) w) = req_text q).
Proof.
  intros Hb Hs; simpl.
  unfold translateText; simpl; unfold Groq.begin, Placeholder.begin.
  rewrite truthy_trim, Hb, Hs; simpl.
  rewrite !toasts_app; simpl; rewrite !app_nil_r.
  split; [repeat split; destruct e; reflexivity|].
  split; [exact Groq_descriptions_distinct|].
  split; [repeat split|]. split; [repeat split|].
  intros n q Hq; unfold Tabs.settle, Toggle.settle; rewrite Hq; simpl.
  split; [reflexivity | apply Toggle_onTranslation_translatedText].
Qed.

Lemma translateText_falls_back_witness :
  (blank Scenario.whereDoesItHurt = false /\ translationService mounted = true)
  /\ fst (translateText Groq.hook Scenario.whereDoesItHurt (lit "en") (lit "es")
            (Throws Scenario.unauthorized) mounted)
     = Fulfilled Scenario.whereDoesItHurt
  /\ toasts (log (snd (translateText Groq.hook Scenario.whereDoesItHurt
                         (lit "en") (lit "es")
                         (Throws Scenario.unauthorized) mounted)))
     = [translationError Groq.authenticationFailed]
  /\ toasts (log (snd (translateText Groq.hook Scenario.whereDoesItHurt
                         (lit "en") (lit "es")
                         (Throws Scenario.rateLimited) mounted)))
     = [translationError Groq.tooManyRequests].
Proof.
  split; [split; reflexivity|].
  pose proof (translateText_falls_back (fun s => s) Scenario.whereDoesItHurt
                (lit "en") (lit "es") Scenario.unauthorized mounted
                eq_refl eq_refl) as A.
  pose proof (translateText_falls_back (fun s => s) Scenario.whereDoesItHurt
                (lit "en") (lit "es") Scenario.rateLimited mounted
                eq_refl eq_refl) as R.
  split; [apply A|]; split; [apply A | apply R].
Defined.

(** C3, as stated, fails on the placeholder snapshot.  A response that is
    not ok, which is all the code sees of a 401 or of a 429, and a thrown
    network error get the same toast as each other, with the connection
    sentence: nothing tells an authentication failure from rate limiting
    or from an unreachable service. *)
Lemma placeholder_notice_is_uniform :
  toasts (log (snd (translateText Scenario.placeholder Scenario.whereDoesItHurt
                      (lit "en") (lit "es") (Resolves false) mounted)))
  = [translationError Placeholder.checkConnection]
  /\ toasts (log (snd (translateText Scenario.placeholder Scenario.whereDoesItHurt
                         (lit "en") (lit "es")
                         (Throws Scenario.unauthorized) mounted)))
     = [translationError Placeholder.checkConnection]
  /\ toasts (log (snd (translateText Scenario.placeholder Scenario.whereDoesItHurt
                         (lit "en") (lit "es")
                         (Throws Scenario.rateLimited) mounted)))
     = [translationError Placeholder.checkConnection]
  /\ toasts (log (snd (translateText Scenario.placeholder Scenario.whereDoesItHurt
                         (lit "en") (lit "es")
                         (Throws Scenario.failedToFetch) mounted)))
     = [translationError Placeholder.checkConnection].
Proof. vm_compute; repeat split. Qed.

(* ------------------------------------------------------------------ *)
(** ** Speech capture: results, sessions, the record button *)

Section RecorderFacts.

Lemma collect_spec (results : list Recorder.result) (f i : jsstring) :
  Recorder.collect results f i =
    (f ++ concat (map (fun r => Recorder.transcript r ++ lit " ")
                      (filter Recorder.isFinal results)),
     i ++ concat (map Recorder.transcript
                      (filter (fun r => negb (Recorder.isFinal r)) results))).
Proof.
  revert f i; induction results as [|r rest IH]; intros f i; simpl.
  - rewrite !app_nil_r; reflexivity.
  - destruct (Recorder.isFinal r); simpl; rewrite IH, <- ?app_assoc; reflexivity.
Qed.

Lemma truthy_app (a b : jsstring) : truthy (a ++ b) = truthy a || truthy b.
Proof. destruct a; reflexivity. Qed.

Lemma starts_app (l l' : list event) :
  Recorder.starts (l ++ l') = Recorder.starts l + Recorder.starts l'.
Proof. unfold Recorder.starts; rewrite filter_app, length_app; reflexivity. Qed.

Lemma run_cons (a : Recorder.action) (actions : list Recorder.action) (w : world) :
  Recorder.run (a :: actions) w = Recorder.run actions (Recorder.step a w).
Proof. reflexivity. Qed.

(** One action keeps [isProcessing] and [isRecording] equal. *)
Lemma step_flags_agree (a : Recorder.action) (w : world) :
  isProcessing w = isRecording w ->
  isProcessing (Recorder.step a w) = isRecording (Recorder.step a w).
Proof.
  intros E; destruct a; simpl;
    unfold VoiceRecorder.startRecording, VoiceRecorder.stopRecording;
    repeat match goal with
           | |- context [if ?b then _ else _] => destruct b
           end; simpl; auto.
Qed.

(** One action starts the recognition only when no session is open, and
    only an error or the end of the recognition closes a session. *)
Lemma step_sessions (a : Recorder.action) (w : world) :
  Recorder.starts (log (Recorder.step a w))
  + (if isRecording (Recorder.step a w) then 0 else 1)
  <= Recorder.starts (log w) + (if isRecording w then 0 else 1)
     + Recorder.endings [a].
Proof.
  unfold Recorder.starts, Recorder.endings.
  destruct a; simpl;
    unfold VoiceRecorder.startRecording, VoiceRecorder.stopRecording,
           VoiceRecorder.onerror, VoiceRecorder.onend;
    destruct (recognitionRef w) eqn:R, (isRecording w) eqn:I; simpl;
    rewrite ?I, ?filter_app, ?length_app; simpl; lia.
Qed.

Lemma endings_cons (a : Recorder.action) (actions : list Recorder.action) :
  Recorder.endings (a :: actions) = Recorder.endings [a] + Recorder.endings actions.
Proof.
  unfold Recorder.endings; simpl.
  destruct a; simpl; reflexivity.
Qed.

End RecorderFacts.

(** X1.  [recognition.onresult] hands [onTranscript] the new final
    fragments, each followed by a space, and after them the new interim
    fragments, in the order of the results from [resultIndex] on; it does
    not call [onTranscript] when that text is empty.  So a final result
    always gets through, even with an empty transcript. *)
Theorem onresult_transcript (resultIndex : nat) (results : list Recorder.result) :
  let fresh := skipn resultIndex results in
  let text :=
    concat (map (fun r => Recorder.transcript r ++ lit " ")
                (filter Recorder.isFinal fresh))
    ++ concat (map Recorder.transcript
                   (filter (fun r => negb (Recorder.isFinal r)) fresh)) in
  Recorder.onresult resultIndex results = (if truthy text then Some text else None)
  /\ (existsb Recorder.isFinal fresh = true ->
      Recorder.onresult resultIndex results = Some text).
Proof.
  simpl; unfold Recorder.onresult; rewrite collect_spec; simpl.
  rewrite <- truthy_app; split; [reflexivity|].
  intros Hf.
  set (fresh := skipn resultIndex results) in *.
  assert (Ht : truthy (concat (map (fun r => Recorder.transcript r ++ lit " ")
                                   (filter Recorder.isFinal fresh))) = true).
  { clearbody fresh; induction fresh as [|r rest IH]; simpl in *; [discriminate|].
    destruct (Recorder.isFinal r); simpl.
    - destruct (Recorder.transcript r); reflexivity.
    - apply IH; exact Hf. }
  rewrite truthy_app, Ht; reflexivity.
Qed.

Lemma onresult_transcript_witness :
  Recorder.onresult 1
    [Recorder.Result (lit "good morning") true;
     Recorder.Result (lit "my head") true;
     Recorder.Result (lit " hur") false]
  = Some (lit "my head  hur").
Proof.
  apply (onresult_transcript 1
           [Recorder.Result (lit "good morning") true;
            Recorder.Result (lit "my head") true;
            Recorder.Result (lit " hur") false]).
  reflexivity.
Defined.

(** X2.  Pressing and releasing the record button, errors and ends of the
    recognition keep [isProcessing] equal to [isRecording] when they start
    equal, as they do on a mounted page: the record button is never
    disabled and the spinner, which has the same condition, never shows. *)
Theorem recorder_button_never_disabled
    (actions : list Recorder.action) (w : world) :
  isProcessing w = isRecording w ->
  isProcessing (Recorder.run actions w) = isRecording (Recorder.run actions w)
  /\ Recorder.buttonDisabled (Recorder.run actions w) = false.
Proof.
  revert w; induction actions as [|a actions IH]; intros w E.
  - split; [exact E|].
    unfold Recorder.buttonDisabled; simpl; rewrite E.
    destruct (isRecording w); reflexivity.
  - rewrite run_cons; apply IH, step_flags_agree, E.
Qed.

Lemma recorder_button_never_disabled_witness :
  isProcessing mounted = isRecording mounted
  /\ Recorder.buttonDisabled
       (Recorder.run [Recorder.Press; Recorder.Release; Recorder.Ended;
                      Recorder.Press; Recorder.Failed (lit "network")] mounted)
     = false.
Proof.
  split; [reflexivity|].
  apply (recorder_button_never_disabled
           [Recorder.Press; Recorder.Release; Recorder.Ended;
            Recorder.Press; Recorder.Failed (lit "network")] mounted eq_refl).
Defined.

(** X3.  Capture sessions do not overlap: along any sequence of presses,
    releases, errors and ends, [recognition.start()] is called at most
    once more than the recognition has failed or ended, and not even that
    once when a session is open at the beginning. *)
Theorem recorder_sessions_exclusive
    (actions : list Recorder.action) (w : world) :
  Recorder.starts (log (Recorder.run actions w))
  + (if isRecording (Recorder.run actions w) then 0 else 1)
  <= Recorder.starts (log w) + (if isRecording w then 0 else 1)
     + Recorder.endings actions.
Proof.
  revert w; induction actions as [|a actions IH]; intros w.
  - simpl; lia.
  - rewrite run_cons, endings_cons.
    pose proof (IH (Recorder.step a w)) as Hrun.
    pose proof (step_sessions a w) as Hstep; lia.
Qed.

(** X4.  After an error of the recognition the next press of the record
    button starts a new session, provided the browser has speech
    recognition; a second press right after it changes nothing. *)
Theorem recorder_restarts_after_error (error : jsstring) (w : world) :
  recognitionRef w = true ->
  let failed := VoiceRecorder.onerror error w in
  isRecording (VoiceRecorder.startRecording failed) = true
  /\ log (VoiceRecorder.startRecording failed) = log failed ++ [RecognitionStart]
  /\ VoiceRecorder.startRecording (VoiceRecorder.startRecording failed)
     = VoiceRecorder.startRecording failed.
Proof.
  intros Hr; simpl; unfold VoiceRecorder.startRecording; simpl.
  rewrite Hr; simpl; rewrite Hr; simpl; repeat split.
Qed.

Lemma recorder_restarts_after_error_witness :
  recognitionRef mounted = true
  /\ log (VoiceRecorder.startRecording
            (VoiceRecorder.onerror (lit "no-speech")
               (VoiceRecorder.startRecording mounted)))
     = [RecognitionStart; ToastShown VoiceRecorder.recognitionError;
        RecognitionStart].
Proof.
  split; [reflexivity|].
  apply (recorder_restarts_after_error (lit "no-speech")
           (VoiceRecorder.startRecording mounted) eq_refl).
Defined.

(* ------------------------------------------------------------------ *)
(** ** The tabs *)

Section TabFacts.

Variable H : useTranslation.

Lemma selectTabs_cons (tab : jsstring) (tabs : list jsstring) (w : world) :
  Wiring.selectTabs H (tab :: tabs) w
  = Wiring.selectTabs H tabs (Tabs.dispatch H (Tabs.switchToTab tab) w).
Proof. reflexivity. Qed.

Lemma swapping_cons (tab : jsstring) (tabs : list jsstring) :
  Wiring.swapping (tab :: tabs)
  = (if eqb tab (lit "patient") then 0 else 1) + Wiring.swapping tabs.
Proof.
  unfold Wiring.swapping; simpl.
  destruct (eqb tab (lit "patient")); reflexivity.
Qed.

End TabFacts.

(** X5.  In the tab snapshot every press of a tab other than "patient"
    swaps the two languages and a press of "patient" keeps them, so after
    a series of presses the languages are the initial ones when the
    number of swapping presses is even and the swapped ones when it is
    odd.  Pressing Provider twice undoes the swap, and going to Provider
    and back to Patient leaves the languages swapped. *)
Theorem selectTabs_languages
    (H : useTranslation) (tabs : list jsstring) (w : world) :
  (sourceLanguage (Wiring.selectTabs H tabs w),
   targetLanguage (Wiring.selectTabs H tabs w))
  = (if Nat.even (Wiring.swapping tabs)
     then (sourceLanguage w, targetLanguage w)
     else (targetLanguage w, sourceLanguage w))
  /\ sourceLanguage (Wiring.selectTabs H [lit "provider"; lit "provider"] w)
     = sourceLanguage w
  /\ sourceLanguage (Wiring.selectTabs H [lit "provider"; lit "patient"] w)
     = targetLanguage w
  /\ activeTab (Wiring.selectTabs H [lit "provider"; lit "patient"] w)
     = lit "patient".
Proof.
  split.
  - revert w; induction tabs as [|tab tabs IH]; intros w; [reflexivity|].
    rewrite selectTabs_cons, swapping_cons, IH, Tabs_dispatch_switchToTab.
    unfold Tabs.switchToTab.
    destruct (eqb tab (lit "patient")); [reflexivity|].
    change (1 + Wiring.swapping tabs) with (S (Wiring.swapping tabs)).
    rewrite Nat.even_succ, <- Nat.negb_even.
    destruct (Nat.even (Wiring.swapping tabs)); reflexivity.
  - unfold Wiring.selectTabs; simpl.
    rewrite !Tabs_dispatch_switchToTab; repeat split.
Qed.

(* ------------------------------------------------------------------ *)
(** ** The debounce timer of the toggle snapshot *)

Section TimerFacts.

Lemma callSpeak_speakTimeout (text language : jsstring) (w : world) :
  speakTimeout (callSpeak text language w) = speakTimeout w.
Proof. speak_frame. Qed.

(** When the timer fires, the text it was armed with is spoken, whatever
    the cells hold by then. *)
Lemma timeoutFires_pending (tm : timer) (w : world) :
  speakTimeout w = Some tm ->
  speakCalls (log (Toggle.timeoutFires w))
  = speakCalls (log w) ++ [(timer_text tm, timer_lang tm)]
  /\ lastSpokenTranslation (Toggle.timeoutFires w) = timer_text tm
  /\ speakTimeout (Toggle.timeoutFires w) = None
  /\ translatedText (Toggle.timeoutFires w) = translatedText w.
Proof.
  intros Ht; unfold Toggle.timeoutFires; rewrite Ht; simpl.
  rewrite callSpeak_speakCalls, callSpeak_speakTimeout; simpl.
  repeat split.
  destruct (callSpeak_frame (timer_text tm) (timer_lang tm)
              (set_speakTimeout None w)) as (T & _); exact T.
Qed.

End TimerFacts.

(** X6.  In the toggle snapshot a translation that arms the debounce
    timer replaces the timer that was pending: when two translations
    arrive within the 400 ms, only the second is spoken when the timer
    fires, once, in the target language of its own request, and a further
    firing does nothing. *)
Theorem debounce_latest_translation_wins
    (q1 q2 : request) (t1 t2 : jsstring) (w : world) :
  req_isSpeaking q2 = false ->
  blank t2 = false ->
  t2 <> lastSpokenTranslation w ->
  let arrived := Toggle.onTranslation q2 t2 (Toggle.onTranslation q1 t1 w) in
  speakTimeout arrived = Some (Timer t2 (req_to q2))
  /\ speakCalls (log (Toggle.timeoutFires arrived))
     = speakCalls (log w) ++ [(t2, req_to q2)]
  /\ lastSpokenTranslation (Toggle.timeoutFires arrived) = t2
  /\ Toggle.timeoutFires (Toggle.timeoutFires arrived)
     = Toggle.timeoutFires arrived.
Proof.
  intros Hq Hb Hn; simpl.
  assert (Hl : lastSpokenTranslation (Toggle.onTranslation q1 t1 w)
               = lastSpokenTranslation w).
  { unfold Toggle.onTranslation.
    destruct (truthy (trim t1) && negb (req_isSpeaking q1)
              && negb (eqb t1 (lastSpokenTranslation (setTranslatedText t1 w))));
      reflexivity. }
  assert (Hg : log (Toggle.onTranslation q1 t1 w) = log w).
  { unfold Toggle.onTranslation.
    destruct (truthy (trim t1) && negb (req_isSpeaking q1)
              && negb (eqb t1 (lastSpokenTranslation (setTranslatedText t1 w))));
      reflexivity. }
  set (w1 := Toggle.onTranslation q1 t1 w) in *.
  assert (Ha : Toggle.onTranslation q2 t2 w1
               = set_speakTimeout (Some (Timer t2 (req_to q2)))
                   (setTranslatedText t2 w1)).
  { unfold Toggle.onTranslation; simpl.
    rewrite truthy_trim, Hb, Hq, Hl, (eqb_neq Hn); reflexivity. }
  rewrite Ha.
  destruct (@timeoutFires_pending (Timer t2 (req_to q2))
              (set_speakTimeout (Some (Timer t2 (req_to q2)))
                 (setTranslatedText t2 w1)) eq_refl) as (S1 & S2 & S3 & _).
  split; [reflexivity|]. split; [rewrite S1; simpl; rewrite Hg; reflexivity|].
  split; [exact S2|].
  unfold Toggle.timeoutFires at 1; rewrite S3; reflexivity.
Qed.

Lemma debounce_latest_translation_wins_witness :
  speakCalls
    (log (Toggle.timeoutFires
            (Toggle.onTranslation
               (Request Scenario.helloEveryone (lit "en") (lit "es") false)
               Scenario.holaATodos
               (Toggle.onTranslation
                  (Request Scenario.hello (lit "en") (lit "es") false)
                  Scenario.hola mounted))))
  = [(Scenario.holaATodos, lit "es")].
Proof.
  apply (@debounce_latest_translation_wins
           (Request Scenario.hello (lit "en") (lit "es") false)
           (Request Scenario.helloEveryone (lit "en") (lit "es") false)
           Scenario.hola Scenario.holaATodos mounted eq_refl eq_refl).
  intros E; vm_compute in E; discriminate E.
Defined.

(** X7.  In the toggle snapshot a translation that does not arm the timer
    (its request was made while something was being spoken, or it is
    blank, or it is the text last spoken) leaves a pending timer alone:
    the timer then speaks the text it was armed with, in the language of
    that earlier request, while the screen shows the newer translation. *)
Theorem debounce_timer_outlives_translation
    (q : request) (t : jsstring) (tm : timer) (w : world) :
  speakTimeout w = Some tm ->
  req_isSpeaking q = true \/ blank t = true \/ t = lastSpokenTranslation w ->
  let arrived := Toggle.onTranslation q t w in
  translatedText arrived = t
  /\ speakTimeout arrived = Some tm
  /\ translatedText (Toggle.timeoutFires arrived) = t
  /\ speakCalls (log (Toggle.timeoutFires arrived))
     = speakCalls (log w) ++ [(timer_text tm, timer_lang tm)].
Proof.
  intros Ht Hc; simpl.
  assert (Ha : Toggle.onTranslation q t w = setTranslatedText t w).
  { unfold Toggle.onTranslation; simpl; rewrite truthy_trim.
    destruct Hc as [Hq | [Hb | He]].
    - rewrite Hq, andb_false_r; reflexivity.
    - rewrite Hb; reflexivity.
    - rewrite He, eqb_refl, andb_false_r; reflexivity. }
  rewrite Ha.
  destruct (@timeoutFires_pending tm (setTranslatedText t w) Ht)
    as (S1 & _ & _ & S4).
  repeat split; [exact Ht | exact S4 | exact S1].
Qed.

Lemma debounce_timer_outlives_translation_witness :
  speakTimeout Scenario.toggleArmed = Some (Timer Scenario.hola (lit "es"))
  /\ translatedText
       (Toggle.timeoutFires
          (Toggle.onTranslation
             (Request Scenario.helloEveryone (lit "en") (lit "fr") true)
             Scenario.holaATodos Scenario.toggleArmed))
     = Scenario.holaATodos
  /\ speakCalls
       (log (Toggle.timeoutFires
               (Toggle.onTranslation
                  (Request Scenario.helloEveryone (lit "en") (lit "fr") true)
                  Scenario.holaATodos Scenario.toggleArmed)))
     = [(Scenario.hola, lit "es")].
Proof.
  split; [reflexivity|].
  destruct (@debounce_timer_outlives_translation
              (Request Scenario.helloEveryone (lit "en") (lit "fr") true)
              Scenario.holaATodos (Timer Scenario.hola (lit "es"))
              Scenario.toggleArmed eq_refl (or_introl eq_refl))
    as (_ & _ & A & B).
  split; [exact A | exact B].
Defined.

(* ------------------------------------------------------------------ *)
(** ** The translation hook on every path *)

Section TrimFacts.

Lemma trimStart_suffix (s : jsstring) : exists p, s = p ++ trimStart s.
Proof.
  induction s as [|c s [p IH]]; [exists []; reflexivity|]; simpl.
  destruct (isWhiteSpace c).
  - exists (c :: p); simpl; rewrite <- IH; reflexivity.
  - exists []; reflexivity.
Qed.

(** What [trim] leaves does not start with white space. *)
Lemma trim_head (s : jsstring) :
  match trim s with [] => True | c :: _ => isWhiteSpace c = false end.
Proof.
  unfold trim, trimEnd.
  destruct (trimStart_suffix (rev (trimStart s))) as [p Hp].
  pose proof (trimStart_head s) as Hh.
  assert (Hz : trimStart s
               = rev (trimStart (rev (trimStart s))) ++ rev p).
  { rewrite <- rev_app_distr, <- Hp, rev_involutive; reflexivity. }
  destruct (rev (trimStart (rev (trimStart s)))) as [|c r]; [exact I|].
  rewrite Hz in Hh; exact Hh.
Qed.

Lemma trim_not_blank (s : jsstring) :
  truthy (trim s) = true -> blank (trim s) = false.
Proof.
  pose proof (trim_head s) as Hh.
  destruct (trim s) as [|c r]; [discriminate|].
  intros _; unfold blank; simpl; rewrite Hh; reflexivity.
Qed.

End TrimFacts.

Section HookFacts.

(** The effect on a transcript that is not blank, with the Groq client in
    place: the call is made and its promise is pending. *)
Lemma Tabs_autoTranslate_Groq (w : world) :
  blank (originalText w) = false -> translationService w = true ->
  Tabs.autoTranslate Groq.hook w
  = set_inflight
      (inflight w ++ [Request (originalText w) (sourceLanguage w)
                              (targetLanguage w) (isSpeaking w)])
      (emit (CompletionRequested (originalText w) (sourceLanguage w)
                                 (targetLanguage w))
         (setIsTranslating true
            (emit (TranslateCalled (originalText w) (sourceLanguage w)
                                   (targetLanguage w)) w))).
Proof.
  intros Hb Hs; unfold Tabs.autoTranslate; simpl; unfold Groq.begin; simpl.
  rewrite truthy_trim, Hb, Hs; reflexivity.
Qed.

Lemma Toggle_autoTranslate_Groq (w : world) :
  blank (originalText w) = false -> translationService w = true ->
  Toggle.autoTranslate Groq.hook w
  = set_inflight
      (inflight w ++ [Request (originalText w) (sourceLanguage w)
                              (targetLanguage w) (isSpeaking w)])
      (emit (CompletionRequested (originalText w) (sourceLanguage w)
                                 (targetLanguage w))
         (setIsTranslating true
            (emit (TranslateCalled (originalText w) (sourceLanguage w)
                                   (targetLanguage w)) w))).
Proof.
  intros Hb Hs; unfold Toggle.autoTranslate; simpl; unfold Groq.begin; simpl.
  rewrite truthy_trim, Hb, Hs; reflexivity.
Qed.

(** From the [await] on, the Groq snapshot fulfils its promise with a
    text that is not blank when the text it was given is not, and it
    writes [isTranslating] and the trace only. *)
Lemma Groq_resume_value (text fromLang toLang : jsstring)
    (o : outcome (option jsstring)) (w : world) :
  blank text = false ->
  exists v w1,
    Groq.resume text fromLang toLang o w = (Fulfilled v, w1)
    /\ blank v = false
    /\ isTranslating w1 = false
    /\ isSpeaking w1 = isSpeaking w
    /\ targetLanguage w1 = targetLanguage w
    /\ hasSpokenOnce w1 = hasSpokenOnce w
    /\ inflight w1 = inflight w.
Proof.
  intros Hb; unfold Groq.resume.
  destruct o as [[content|]|e]; simpl.
  - destruct (truthy (trim content)) eqn:T; simpl.
    + eexists; eexists; split; [reflexivity|].
      split; [apply trim_not_blank, T | repeat split].
    + eexists; eexists; split; [reflexivity|]. split; [exact Hb | repeat split].
  - eexists; eexists; split; [reflexivity|]. split; [exact Hb | repeat split].
  - eexists; eexists; split; [reflexivity|]. split; [exact Hb | repeat split].
Qed.

Lemma Placeholder_resume_value (up : jsstring -> jsstring)
    (text fromLang toLang : jsstring) (o : outcome bool) (w : world) :
  blank text = false ->
  exists v w1,
    Placeholder.resume up text fromLang toLang o w = (Fulfilled v, w1)
    /\ blank v = false
    /\ isTranslating w1 = false
    /\ inflight w1 = inflight w.
Proof.
  intros Hb; unfold Placeholder.resume.
  destruct o as [[|]|e]; simpl;
    eexists; eexists; (split; [reflexivity|]);
    (split; [first [exact Hb | reflexivity] | repeat split]).
Qed.

End HookFacts.

(** X8.  Given a text that is not blank, [translateText] of either
    snapshot fulfils its promise with a text that is not blank, whatever
    the backend does: a translation, or the text itself when the call
    fails, the answer is empty or the Groq client is missing.  When the
    backend was reached, [isTranslating] is false afterwards. *)
Theorem translateText_never_blank
    (toUpperCase : jsstring -> jsstring) (text fromLang toLang : jsstring)
    (og : outcome (option jsstring)) (op : outcome bool) (w : world) :
  blank text = false ->
  (exists v, fst (translateText Groq.hook text fromLang toLang og w) = Fulfilled v
             /\ blank v = false)
  /\ (exists v,
        fst (translateText (Placeholder.hook toUpperCase) text fromLang toLang op w)
        = Fulfilled v
        /\ blank v = false)
  /\ (translationService w = true ->
      isTranslating (snd (translateText Groq.hook text fromLang toLang og w)) = false)
  /\ isTranslating
       (snd (translateText (Placeholder.hook toUpperCase) text fromLang toLang op w))
     = false.
Proof.
  intros Hb; unfold translateText; simpl; unfold Groq.begin, Placeholder.begin.
  rewrite truthy_trim, Hb; simpl.
  repeat apply conj.
  - destruct (translationService w); simpl.
    + destruct (Groq_resume_value text fromLang toLang og
                  (emit (CompletionRequested text fromLang toLang)
                     (setIsTranslating true w)) Hb) as (v & w1 & E & Hv & _).
      rewrite E; exists v; split; [reflexivity | exact Hv].
    + exists text; split; [reflexivity | exact Hb].
  - destruct (Placeholder_resume_value toUpperCase text fromLang toLang op
                (emit FetchRequested (setIsTranslating true w)) Hb)
      as (v & w1 & E & Hv & _).
    rewrite E; exists v; split; [reflexivity | exact Hv].
  - intros Hs; rewrite Hs; simpl.
    destruct (Groq_resume_value text fromLang toLang og
                (emit (CompletionRequested text fromLang toLang)
                   (setIsTranslating true w)) Hb) as (v & w1 & E & _ & Ht & _).
    rewrite E; exact Ht.
  - destruct (Placeholder_resume_value toUpperCase text fromLang toLang op
                (emit FetchRequested (setIsTranslating true w)) Hb)
      as (v & w1 & E & _ & Ht & _).
    rewrite E; exact Ht.
Qed.

Lemma translateText_never_blank_witness :
  blank Scenario.whereDoesItHurt = false
  /\ exists v,
       fst (translateText Groq.hook Scenario.whereDoesItHurt (lit "en") (lit "es")
              (Resolves (Some (lit "   "))) mounted) = Fulfilled v
       /\ blank v = false.
Proof.
  split; [reflexivity|].
  apply (translateText_never_blank (fun s => s) Scenario.whereDoesItHurt
           (lit "en") (lit "es") (Resolves (Some (lit "   "))) (Resolves true)
           mounted eq_refl).
Defined.

(* ------------------------------------------------------------------ *)
(** ** The page and the hook together *)

(** X9.  While the Groq client is missing, the effect of either snapshot
    shows a transcript that is not blank as its own translation at once:
    one "Translation Error" toast, no call of the backend, no pending
    promise.  In the toggle snapshot the debounce timer is armed with
    that untranslated text when nothing is being spoken and it is not the
    text last spoken. *)
Theorem missing_client_echoes_transcript (w : world) :
  blank (originalText w) = false ->
  translationService w = false ->
  let said :=
    [TranslateCalled (originalText w) (sourceLanguage w) (targetLanguage w);
     ToastShown (translationError Groq.notInitialized)] in
  (translatedText (Tabs.autoTranslate Groq.hook w) = originalText w
   /\ log (Tabs.autoTranslate Groq.hook w) = log w ++ said
   /\ inflight (Tabs.autoTranslate Groq.hook w) = inflight w
   /\ isTranslating (Tabs.autoTranslate Groq.hook w) = isTranslating w)
  /\ (translatedText (Toggle.autoTranslate Groq.hook w) = originalText w
      /\ log (Toggle.autoTranslate Groq.hook w) = log w ++ said
      /\ inflight (Toggle.autoTranslate Groq.hook w) = inflight w
      /\ (isSpeaking w = false ->
          originalText w <> lastSpokenTranslation w ->
          speakTimeout (Toggle.autoTranslate Groq.hook w)
          = Some (Timer (originalText w) (targetLanguage w)))).
Proof.
  intros Hb Hs; simpl.
  unfold Tabs.autoTranslate, Toggle.autoTranslate; simpl; unfold Groq.begin; simpl.
  rewrite truthy_trim, Hb, Hs; simpl.
  split; [rewrite <- app_assoc; repeat split|].
  unfold Toggle.onTranslation; simpl; rewrite truthy_trim, Hb; simpl.
  destruct (isSpeaking w); simpl.
  - rewrite <- app_assoc; repeat split; discriminate.
  - destruct (eqb_spec (originalText w) (lastSpokenTranslation w)) as [E|E]; simpl;
      rewrite <- app_assoc; repeat split; intros; try reflexivity; contradiction.
Qed.

Lemma missing_client_echoes_transcript_witness :
  translatedText
    (Toggle.autoTranslate Groq.hook
       (setOriginalText Scenario.hello Wiring.noClient))
  = Scenario.hello
  /\ speakTimeout
       (Toggle.autoTranslate Groq.hook
          (setOriginalText Scenario.hello Wiring.noClient))
     = Some (Timer Scenario.hello (lit "es")).
Proof.
  destruct (missing_client_echoes_transcript
              (setOriginalText Scenario.hello Wiring.noClient)
              eq_refl eq_refl) as (_ & A & _ & _ & B).
  split; [exact A|].
  apply B; [reflexivity | intros E; vm_compute in E; discriminate E].
Defined.



(** X11.  Emptying the original transcript with its own clear button
    empties the translation as well, by the effect of the page, without
    calling [translateText]; the tab snapshot reopens the gate, the
    toggle snapshot leaves [lastSpokenTranslation] alone.  Emptying the
    translation with its clear button leaves the original transcript in
    place and translates nothing again. *)
Theorem clear_buttons (H : useTranslation) (w : world) :
  originalText w <> [] ->
  let t := Tabs.dispatch H (setOriginalText []) w in
  let g := Toggle.dispatch H (setOriginalText []) w in
  (originalText t = [] /\ translatedText t = [] /\ hasSpokenOnce t = false
   /\ log t = log w /\ inflight t = inflight w)
  /\ (originalText g = [] /\ translatedText g = []
      /\ lastSpokenTranslation g = lastSpokenTranslation w
      /\ log g = log w /\ inflight g = inflight w)
  /\ Tabs.dispatch H (setTranslatedText []) w = setTranslatedText [] w
  /\ Toggle.dispatch H (setTranslatedText []) w = setTranslatedText [] w.
Proof.
  intros Ho; simpl.
  unfold Tabs.dispatch, Toggle.dispatch, Tabs.render, Toggle.render,
         Tabs.depsChanged, Toggle.depsChanged; simpl.
  rewrite (eqb_neq Ho), !eqb_refl, Bool.eqb_reflx; simpl.
  unfold Tabs.autoTranslate, Toggle.autoTranslate; simpl.
  repeat split.
Qed.

Lemma clear_buttons_witness :
  originalText Scenario.translated <> []
  /\ translatedText Scenario.translated = Scenario.hola
  /\ translatedText
       (Tabs.dispatch Groq.hook (setOriginalText []) Scenario.translated) = []
  /\ originalText
       (Tabs.dispatch Groq.hook (setTranslatedText []) Scenario.translated)
     = Scenario.hello.
Proof.
  assert (Ho : originalText Scenario.translated <> [])
    by (intros E; vm_compute in E; discriminate E).
  split; [exact Ho|]; split; [reflexivity|].
  destruct (@clear_buttons Groq.hook Scenario.translated Ho) as ((_ & A & _) & _ & B & _).
  split; [exact A | rewrite B; reflexivity].
Defined.

(** X12.  In the toggle snapshot [isSpeaking] is a dependency of the
    effect: when an utterance starts and when it ends, the transcript on
    the screen is sent for translation once more, so speaking one
    translation costs two more calls of the backend.  In the tab snapshot
    the start of an utterance only sets [isSpeaking]. *)
Theorem utterance_retranslates (H : useTranslation) (w : world) :
  blank (originalText w) = false ->
  translationService w = true ->
  isSpeaking w = false ->
  let called :=
    [TranslateCalled (originalText w) (sourceLanguage w) (targetLanguage w);
     CompletionRequested (originalText w) (sourceLanguage w) (targetLanguage w)] in
  let started := Toggle.dispatch Groq.hook TextToSpeech.onstart w in
  let ended := Toggle.dispatch Groq.hook TextToSpeech.onend started in
  (log started = log w ++ called
   /\ inflight started
      = inflight w ++ [Request (originalText w) (sourceLanguage w)
                               (targetLanguage w) true])
  /\ (log ended = log w ++ called ++ called
      /\ inflight ended
         = inflight w
           ++ [Request (originalText w) (sourceLanguage w) (targetLanguage w) true;
               Request (originalText w) (sourceLanguage w) (targetLanguage w) false])
  /\ Tabs.dispatch H TextToSpeech.onstart w = TextToSpeech.onstart w.
Proof.
  intros Hb Hs Hk; simpl.
  assert (S1 : Toggle.dispatch Groq.hook TextToSpeech.onstart w
               = Toggle.autoTranslate Groq.hook (TextToSpeech.onstart w)).
  { unfold Toggle.dispatch, Toggle.render, Toggle.depsChanged; simpl.
    rewrite !eqb_refl, Hk; reflexivity. }
  rewrite S1, Toggle_autoTranslate_Groq by assumption; simpl.
  set (started := set_inflight _ _).
  assert (S2 : Toggle.dispatch Groq.hook TextToSpeech.onend started
               = Toggle.autoTranslate Groq.hook (TextToSpeech.onend started)).
  { unfold Toggle.dispatch, Toggle.render, Toggle.depsChanged; simpl.
    rewrite !eqb_refl; reflexivity. }
  rewrite S2, Toggle_autoTranslate_Groq by assumption; simpl.
  rewrite <- !app_assoc; simpl.
  repeat split.
  unfold Tabs.dispatch, Tabs.render, Tabs.depsChanged; simpl.
  rewrite !eqb_refl; reflexivity.
Qed.

Lemma utterance_retranslates_witness :
  length (inflight Scenario.saying) = 0
  /\ length (inflight
               (Toggle.dispatch Groq.hook TextToSpeech.onend
                  (Toggle.dispatch Groq.hook TextToSpeech.onstart Scenario.saying)))
     = 2.
Proof.
  split; [reflexivity|].
  destruct (utterance_retranslates Groq.hook Scenario.saying
              eq_refl eq_refl eq_refl) as (_ & (_ & A) & _).
  rewrite A; reflexivity.
Defined.

(** X13.  In the tab snapshot with the Groq hook, every answer that
    arrives for a pending request reopens the gate: when nothing is being
    spoken, the next press of Speak calls [speak] once, with the text now
    on the screen (the translation, or the request's own text when the
    backend failed) and the target language selected at that moment,
    also when a translation had been spoken before. *)
Theorem answer_can_be_spoken
    (n : nat) (o : outcome (option jsstring)) (q : request) (w : world) :
  nth_error (inflight w) n = Some q ->
  blank (req_text q) = false ->
  isSpeaking w = false ->
  let t := Tabs.settle Groq.hook n o w in
  speakCalls (log (Tabs.handleSpeak t))
  = speakCalls (log t) ++ [(translatedText t, targetLanguage w)]
  /\ hasSpokenOnce (Tabs.handleSpeak t) = true.
Proof.
  intros Hq Hb Hk; simpl; unfold Tabs.settle; rewrite Hq; simpl.
  destruct (Groq_resume_value (req_text q) (req_from q) (req_to q) o
              (set_inflight (removeAt n (inflight w)) w) Hb)
    as (v & w1 & E & Hv & _ & Hs & Hl & _).
  rewrite E; simpl in Hs, Hl; simpl.
  rewrite Tabs_handleSpeak_open; simpl;
    [|rewrite Hs; exact Hk | exact Hv | reflexivity].
  rewrite callSpeak_speakCalls; simpl; rewrite Hl; split; reflexivity.
Qed.

Lemma answer_can_be_spoken_witness :
  hasSpokenOnce (Tabs.handleSpeak Scenario.translated) = true
  /\ speakCalls
       (log (Tabs.handleSpeak
               (Tabs.settle Groq.hook 0 (Throws Scenario.rateLimited)
                  (Tabs.dispatch Groq.hook (setOriginalText Scenario.helloEveryone)
                     (Tabs.handleSpeak Scenario.translated)))))
     = [(Scenario.hola, lit "es"); (Scenario.helloEveryone, lit "es")].
Proof.
  split; [reflexivity|].
  apply (@answer_can_be_spoken 0 (Throws Scenario.rateLimited)
           (Request Scenario.helloEveryone (lit "en") (lit "es") false)
           (Tabs.dispatch Groq.hook (setOriginalText Scenario.helloEveryone)
              (Tabs.handleSpeak Scenario.translated))
           eq_refl eq_refl eq_refl).
Defined.

Section EffectFrame.

(** The effect of either snapshot, with the Groq hook, writes neither the
    transcript nor the languages. *)
Lemma Tabs_autoTranslate_Groq_frame (w : world) :
  originalText (Tabs.autoTranslate Groq.hook w) = originalText w
  /\ sourceLanguage (Tabs.autoTranslate Groq.hook w) = sourceLanguage w
  /\ targetLanguage (Tabs.autoTranslate Groq.hook w) = targetLanguage w.
Proof.
  unfold Tabs.autoTranslate; simpl; unfold Groq.begin; simpl.
  destruct (truthy (trim (originalText w))); simpl; [|repeat split].
  destruct (translationService w); simpl; repeat split.
Qed.

Lemma Toggle_autoTranslate_Groq_frame (w : world) :
  originalText (Toggle.autoTranslate Groq.hook w) = originalText w
  /\ sourceLanguage (Toggle.autoTranslate Groq.hook w) = sourceLanguage w
  /\ targetLanguage (Toggle.autoTranslate Groq.hook w) = targetLanguage w.
Proof.
  unfold Toggle.autoTranslate; simpl; unfold Groq.begin; simpl.
  destruct (truthy (trim (originalText w))); simpl; [|repeat split].
  destruct (translationService w); simpl; [repeat split|].
  unfold Toggle.onTranslation.
  match goal with
  | |- context [if ?b then _ else _] => destruct b
  end; repeat split.
Qed.

End EffectFrame.

(** X14.  Each result event of the recognition replaces the transcript of
    the page: when [onresult] calls [onTranscript] with a text, that text
    alone is [originalText] afterwards, in both snapshots, whatever the
    transcript was; when it does not call it, the page stays as it is. *)
Theorem result_replaces_transcript
    (resultIndex : nat) (results : list Recorder.result) (w : world) :
  match Recorder.onresult resultIndex results with
  | Some text =>
      originalText (Wiring.tabsResult Groq.hook resultIndex results w) = text
      /\ originalText (Wiring.toggleResult Groq.hook resultIndex results w) = text
  | None =>
      Wiring.tabsResult Groq.hook resultIndex results w = w
      /\ Wiring.toggleResult Groq.hook resultIndex results w = w
  end.
Proof.
  unfold Wiring.tabsResult, Wiring.toggleResult.
  destruct (Recorder.onresult resultIndex results) as [text|]; [|split; reflexivity].
  unfold Tabs.dispatch, Toggle.dispatch, Tabs.render, Toggle.render.
  destruct (Tabs.depsChanged w (setOriginalText text w));
    destruct (Toggle.depsChanged w (setOriginalText text w)); split;
    try reflexivity;
    first [ apply (Tabs_autoTranslate_Groq_frame (setOriginalText text w))
          | apply (Toggle_autoTranslate_Groq_frame (setOriginalText text w)) ].
Qed.

(** X15.  Selecting another source or target language while a transcript
    that is not blank is on the screen sends that transcript for
    translation again, with the new pair of languages; the translation
    made for the old pair stays in [translatedText] until the answer
    arrives, behind "Translating..." on the panel. *)
Theorem language_change_retranslates (l : jsstring) (w : world) :
  blank (originalText w) = false ->
  translationService w = true ->
  (l <> sourceLanguage w ->
   let t := Tabs.dispatch Groq.hook (setSourceLanguage l) w in
   let g := Toggle.dispatch Groq.hook (setSourceLanguage l) w in
   inflight t = inflight w ++ [Request (originalText w) l (targetLanguage w)
                                       (isSpeaking w)]
   /\ translatedText t = translatedText w
   /\ Wiring.translationPanel t = lit "Translating..."
   /\ inflight g = inflight t /\ translatedText g = translatedText w)
  /\ (l <> targetLanguage w ->
      let t := Tabs.dispatch Groq.hook (setTargetLanguage l) w in
      let g := Toggle.dispatch Groq.hook (setTargetLanguage l) w in
      inflight t = inflight w ++ [Request (originalText w) (sourceLanguage w) l
                                          (isSpeaking w)]
      /\ translatedText t = translatedText w
      /\ Wiring.translationPanel t = lit "Translating..."
      /\ inflight g = inflight t /\ translatedText g = translatedText w).
Proof.
  intros Hb Hs; split; intros Hl; simpl;
    unfold Tabs.dispatch, Toggle.dispatch, Tabs.render, Toggle.render,
           Tabs.depsChanged, Toggle.depsChanged; simpl;
    rewrite !eqb_refl, Bool.eqb_reflx;
    rewrite (eqb_neq (fun E => Hl (eq_sym E))); simpl;
    rewrite ?andb_false_r; simpl;
    rewrite Tabs_autoTranslate_Groq, Toggle_autoTranslate_Groq by assumption;
    repeat split.
Qed.

Lemma language_change_retranslates_witness :
  translatedText Scenario.translated = Scenario.hola
  /\ inflight (Tabs.dispatch Groq.hook (setTargetLanguage (lit "fr"))
                 Scenario.translated)
     = [Request Scenario.hello (lit "en") (lit "fr") false]
  /\ translatedText (Tabs.dispatch Groq.hook (setTargetLanguage (lit "fr"))
                       Scenario.translated)
     = Scenario.hola.
Proof.
  split; [reflexivity|].
  destruct (@language_change_retranslates (lit "fr") Scenario.translated
              eq_refl eq_refl) as (_ & T).
  destruct T as (A & B & _).
  - intros E; vm_compute in E; discriminate E.
  - split; [exact A | exact B].
Defined.
